(** * ToolVerse analytics service: a shallow embedding and its properties

    The repository holds two prototype analytics services:
    - [analytics-service/app.py]: SQLite event store, Redis counter cache,
      the metrics aggregator [calculate_real_time_metrics] and the unscoped
      broadcast hub [broadcast_to_clients];
    - [analytics-service/main.py]: the in-memory event buffer, the
      ingestion path [process_event] with insight derivation and anomaly
      detection, and the organization-scoped broadcast
      [broadcast_to_organization].

    Modelling conventions.
    - Python [float] values are idealised as exact rationals ([Q]).
    - Instants (Python [datetime], SQLite [DATETIME] text) are integers
      counting microseconds on one time axis; the textual comparison SQLite
      performs on ISO-8601 strings agrees with the chronological order.
    - Code that may raise returns [result]; the state reached before the
      exception is kept, as Python keeps mutations made before a raise.
    - External collaborators whose answer the code cannot control (the host
      sampler [psutil], the reachability of Redis, the outcome of a
      WebSocket send, the pandas group-by computations) are inputs. *)

From Stdlib Require Import ZArith QArith Qround List String Ascii Bool Lia Lqa.
From stdpp Require Import base option list strings gmap pretty.

Local Open Scope Z_scope.

(** ** Python exceptions and fallible computations *)

Inductive exn : Type :=
| ValueError (msg : string)
| ConnectionError (msg : string)
| ResponseError (msg : string).

Inductive result (A : Type) : Type :=
| Ok (a : A)
| Raise (e : exn).
Arguments Ok {A} a.
Arguments Raise {A} e.

(** A command on a mutable store [S]: it returns the store it leaves behind
    together with its value or the exception it raised. *)
Definition Eff (S A : Type) : Type := S -> S * result A.

Definition ret {S A : Type} (a : A) : Eff S A := fun s => (s, Ok a).

Definition raise {S A : Type} (e : exn) : Eff S A := fun s => (s, Raise e).

(** Sequencing: the first exception ends the block, the store keeps what
    was written before it. *)
Definition and_then {S A B : Type} (m : Eff S A) (k : A -> Eff S B) : Eff S B :=
  fun s =>
    match m s with
    | (s1, Ok a) => k a s1
    | (s1, Raise e) => (s1, Raise e)
    end.

Notation "'let!' x ':=' m 'in' k" := (and_then m (fun x => k))
  (at level 10, x name, m at level 100, k at level 200, only parsing).

(** ** Python list helpers *)

(** [l[-n:]] for a positive literal [n]: the last [n] elements, the whole
    list when it is shorter. *)
Definition last_n {A : Type} (n : nat) (l : list A) : list A :=
  skipn (length l - n)%nat l.

(** [len([e for e in l if p(e)])]. *)
Definition count_if {A : Type} (p : A -> bool) (l : list A) : nat :=
  length (List.filter p l).

(** ** Rational helpers *)

Definition Qltb (x y : Q) : bool :=
  (Qnum x * QDen y <? Qnum y * QDen x)%Z.

(** Round half to even, the rule of Python's [round]. *)
Definition round_half_even (q : Q) : Z :=
  let f := Qfloor q in
  let twice_rest := (2 * (q - inject_Z f))%Q in
  if Qltb twice_rest 1 then f
  else if Qltb 1 twice_rest then f + 1
  else if Z.even f then f else f + 1.

(** [round(q, 2)]. *)
Definition round2 (q : Q) : Q :=
  (inject_Z (round_half_even (q * 100)) / 100)%Q.

(** [SUM(amount)] wrapped in [COALESCE(..., 0)]. *)
Definition Qsum (l : list Q) : Q :=
  fold_right Qplus 0%Q l.

(** ** SQLite [LIKE] *)

Module Sql.

(** ASCII case folding: SQLite's [LIKE] ignores case for ASCII letters. *)
Definition lower (c : ascii) : ascii :=
  let n := nat_of_ascii c in
  if ((65 <=? n) && (n <=? 90))%nat then ascii_of_nat (n + 32) else c.

(** [like p s]: [%] matches any run of characters, [_] any single one,
    every other character matches itself up to ASCII case. *)
Fixpoint like (p s : list ascii) : bool :=
  match p with
  | [] => match s with [] => true | _ => false end
  | c :: p' =>
      if Ascii.eqb c "%"%char then
        (fix star (t : list ascii) : bool :=
           like p' t || match t with [] => false | _ :: t' => star t' end) s
      else if Ascii.eqb c "_"%char then
        match s with [] => false | _ :: s' => like p' s' end
      else
        match s with
        | [] => false
        | d :: s' => Ascii.eqb (lower c) (lower d) && like p' s'
        end
  end.

Definition LIKE (s pattern : string) : bool :=
  like (list_ascii_of_string pattern) (list_ascii_of_string s).

End Sql.

(** ** Redis *)

Module Redis.

Inductive rvalue : Type :=
| RInt (n : Z)
| RStr (s : string)
| RHash (h : gmap string Z).

(** A key's value and its time to live in seconds ([None]: no expiry). *)
Record entry : Type := {
  value : rvalue;
  ttl : option Z
}.

(** The server as the client sees it: when it is not [reachable] every
    command raises. *)
Record server : Type := {
  reachable : bool;
  db : gmap string entry
}.

Definition with_db (r : server) (d : gmap string entry) : server :=
  {| reachable := reachable r; db := d |}.

Definition int64_max : Z := 9223372036854775807.

Definition connected {A : Type} (cmd : Eff server A) : Eff server A :=
  fun r =>
    if reachable r then cmd r
    else (r, Raise (ConnectionError "Error connecting to Redis")).

(** [INCR key]: a missing key counts from 0 and gets no expiry; an existing
    key keeps the expiry it has. *)
Definition incr (key : string) : Eff server Z :=
  connected (fun r =>
    match db r !! key with
    | None => (with_db r (<[key := {| value := RInt 1; ttl := None |}]> (db r)), Ok 1)
    | Some {| value := RInt n; ttl := t |} =>
        if n <? int64_max
        then (with_db r (<[key := {| value := RInt (n + 1); ttl := t |}]> (db r)),
              Ok (n + 1))
        else (r, Raise (ResponseError "increment or decrement would overflow"))
    | Some {| value := RStr _ |} =>
        (r, Raise (ResponseError "value is not an integer or out of range"))
    | Some {| value := RHash _ |} =>
        (r, Raise (ResponseError "WRONGTYPE"))
    end).

(** [EXPIRE key seconds]: sets the time to live of an existing key. *)
Definition expire (key : string) (seconds : Z) : Eff server bool :=
  connected (fun r =>
    match db r !! key with
    | None => (r, Ok false)
    | Some e =>
        (with_db r (<[key := {| value := value e; ttl := Some seconds |}]> (db r)),
         Ok true)
    end).

(** [SETEX key seconds value]. *)
Definition setex (key : string) (seconds : Z) (v : string) : Eff server bool :=
  connected (fun r =>
    (with_db r (<[key := {| value := RStr v; ttl := Some seconds |}]> (db r)),
     Ok true)).

Definition int64_min : Z := -9223372036854775808.

(** Whether [old + amount] leaves the signed 64-bit range, as the server
    tests it before an increment. *)
Definition overflows (old amount : Z) : bool :=
  ((amount <? 0) && (old <? 0) && (amount <? int64_min - old))
  || ((0 <? amount) && (0 <? old) && (int64_max - old <? amount)).

(** [HINCRBY key field amount]: a missing key or field counts from 0; an
    increment that would leave the 64-bit range is refused. *)
Definition hincrby (key field : string) (amount : Z) : Eff server Z :=
  connected (fun r =>
    match db r !! key with
    | None =>
        (with_db r (<[key := {| value := RHash {[ field := amount ]}; ttl := None |}]> (db r)),
         Ok amount)
    | Some {| value := RHash h; ttl := t |} =>
        if overflows (default 0 (h !! field)) amount
        then (r, Raise (ResponseError "increment or decrement would overflow"))
        else
          let n := default 0 (h !! field) + amount in
          (with_db r (<[key := {| value := RHash (<[field := n]> h); ttl := t |}]> (db r)),
           Ok n)
    | Some _ => (r, Raise (ResponseError "WRONGTYPE"))
    end).

Definition ttl_of (r : server) (key : string) : option (option Z) :=
  ttl <$> (db r !! key).

Definition value_of (r : server) (key : string) : option rvalue :=
  value <$> (db r !! key).

(** [GET key]: the string stored, an integer in decimal. *)
Definition get (key : string) : Eff server (option string) :=
  connected (fun r =>
    match db r !! key with
    | None => (r, Ok None)
    | Some {| value := RStr s |} => (r, Ok (Some s))
    | Some {| value := RInt n |} => (r, Ok (Some (pretty n)))
    | Some {| value := RHash _ |} => (r, Raise (ResponseError "WRONGTYPE"))
    end).

(** [HGETALL key]: the fields of a hash, none for a missing key. *)
Definition hgetall (key : string) : Eff server (gmap string Z) :=
  connected (fun r =>
    match db r !! key with
    | None => (r, Ok ∅)
    | Some {| value := RHash h |} => (r, Ok h)
    | Some _ => (r, Raise (ResponseError "WRONGTYPE"))
    end).

End Redis.

(** ** [app.py]: event store, metrics aggregator, counter cache, broadcast *)

Module App.

(** *** The SQLite store ([init_database]) *)

Record EventRow : Type := {
  e_event_type : string;
  e_user_id : option string;
  e_organization_id : option string;
  e_timestamp : Z;
  e_data : string;
  e_ip_address : option string;
  e_user_agent : option string
}.

Record ToolUsageRow : Type := {
  t_tool_id : string;
  t_tool_name : string;
  t_user_id : option string;
  t_usage_type : string;
  t_timestamp : Z;
  t_execution_time_ms : option Z;
  t_success : bool
}.

Record PaymentRow : Type := {
  p_user_id : string;
  p_amount : Q;
  p_currency : string;
  p_transaction_id : string;
  p_status : string;
  p_timestamp : Z
}.

Record SubscriptionRow : Type := {
  s_user_id : string;
  s_plan_name : string;
  s_amount : Q;
  s_billing_cycle : string;
  s_status : string
}.

Record Db : Type := {
  events : list EventRow;
  tool_usage : list ToolUsageRow;
  payments : list PaymentRow;
  subscriptions : list SubscriptionRow
}.

(** [timedelta(hours=1)] and [timedelta(days=1)], in microseconds. *)
Definition one_hour : Z := 3600000000.
Definition one_day : Z := 86400000000.

Definition hour_ago (now : Z) : Z := now - one_hour.
Definition day_ago (now : Z) : Z := now - one_day.

(** [FROM events WHERE timestamp > ?] with [hour_ago] bound. *)
Definition events_since (since : Z) (db : Db) : list EventRow :=
  List.filter (fun e => since <? e_timestamp e) (events db).

Definition is_api_event (e : EventRow) : bool :=
  Sql.LIKE (e_event_type e) "%_api_%".

Definition is_error_event (e : EventRow) : bool :=
  Sql.LIKE (e_event_type e) "%_error%".

Definition is_completed (p : PaymentRow) : bool :=
  String.eqb (p_status p) "completed".

Definition is_active_monthly (s : SubscriptionRow) : bool :=
  String.eqb (s_status s) "active" && String.eqb (s_billing_cycle s) "monthly".

(** *** The local variables of [calculate_real_time_metrics] *)

Module Calc.

(** [SELECT COUNT(DISTINCT user_id) ... AND user_id IS NOT NULL]. *)
Definition active_users (db : Db) (now : Z) : nat :=
  length (remove_dups (omap e_user_id (events_since (hour_ago now) db))).

Definition api_calls (db : Db) (now : Z) : nat :=
  count_if is_api_event (events_since (hour_ago now) db).

Definition api_calls_per_minute (db : Db) (now : Z) : Q :=
  (inject_Z (Z.of_nat (api_calls db now)) / 60)%Q.

(** The row [(errors, total)] fetched by the error-rate query. *)
Definition result (db : Db) (now : Z) : nat * nat :=
  let window := events_since (hour_ago now) db in
  (count_if is_error_event window, length window).

(** [(result[0] / result[1] * 100) if result[1] > 0 else 0]. *)
Definition error_rate (db : Db) (now : Z) : Q :=
  let r := result db now in
  if (0 <? snd r)%nat
  then (inject_Z (Z.of_nat (fst r)) / inject_Z (Z.of_nat (snd r)) * 100)%Q
  else 0%Q.

Definition tools_used (db : Db) (now : Z) : nat :=
  length (List.filter (fun t => hour_ago now <? t_timestamp t) (tool_usage db)).

Definition revenue_today (db : Db) (now : Z) : Q :=
  Qsum (map p_amount
          (List.filter (fun p => (day_ago now <? p_timestamp p) && is_completed p)
                       (payments db))).

Definition total_revenue (db : Db) : Q :=
  Qsum (map p_amount (List.filter is_completed (payments db))).

Definition mrr (db : Db) : Q :=
  Qsum (map s_amount (List.filter is_active_monthly (subscriptions db))).

(** ["healthy" if error_rate < 5 and cpu_usage < 80 else "warning"]. *)
Definition system_health (error_rate cpu_usage : Q) : string :=
  if Qltb error_rate 5 && Qltb cpu_usage 80 then "healthy" else "warning".

End Calc.

(** *** The snapshot dictionary *)

Record MetricsSnapshot : Type := {
  timestamp : Z;
  active_users : nat;
  api_calls_per_minute : Q;
  error_rate : Q;
  cpu_usage : Q;
  memory_usage : Q;
  tools_used_last_hour : nat;
  revenue_today : Q;
  total_revenue : Q;
  mrr : Q;
  arr : Q;
  total_events_last_hour : nat;
  system_health : string
}.

(** The host sample: [psutil.cpu_percent()] and
    [psutil.virtual_memory().percent]. *)
Record Host : Type := {
  cpu_percent : Q;
  virtual_memory_percent : Q
}.

(** [calculate_real_time_metrics], with the clock reading [now] and the host
    sample as inputs. *)
Definition calculate_real_time_metrics (db : Db) (now : Z) (host : Host)
  : MetricsSnapshot :=
  let error_rate := Calc.error_rate db now in
  let cpu_usage := cpu_percent host in
  let memory_usage := virtual_memory_percent host in
  {| timestamp := now;
     active_users := Calc.active_users db now;
     api_calls_per_minute := round2 (Calc.api_calls_per_minute db now);
     error_rate := round2 error_rate;
     cpu_usage := cpu_usage;
     memory_usage := memory_usage;
     tools_used_last_hour := Calc.tools_used db now;
     revenue_today := round2 (Calc.revenue_today db now);
     total_revenue := round2 (Calc.total_revenue db);
     mrr := round2 (Calc.mrr db);
     arr := round2 (Calc.mrr db * 12);
     total_events_last_hour := Calc.api_calls db now;
     system_health := Calc.system_health error_rate cpu_usage |}.


(** *** Ingestion: [process_event] and [update_real_time_counters] *)

(** The dictionary built from the [Event] model: [event.dict()]; [data] is
    the JSON text of the payload. *)
Record Event : Type := {
  event_type : string;
  user_id : option string;
  organization_id : option string;
  data : string;
  ip_address : option string;
  user_agent : option string
}.

(** Python truthiness of an optional string: [None] and [""] are false. *)
Definition truthy (o : option string) : bool :=
  match o with
  | None => false
  | Some s => negb (String.eqb s "")
  end.

(** [update_real_time_counters] on a connected client: both counters are
    incremented, then [expire] is called on the event-type counter. *)
Definition update_counters_on (event_data : Event) : Eff Redis.server unit :=
  let! _ := Redis.incr ("counter:event:" +:+ event_type event_data) in
  let! _ := (if truthy (user_id event_data)
             then Redis.incr ("counter:user:" +:+ default "" (user_id event_data))
             else ret 0) in
  let! _ := Redis.expire ("counter:event:" +:+ event_type event_data) 86400 in
  ret tt.

(** [update_real_time_counters]: nothing happens when [redis_client] is
    [None]. *)
Definition update_real_time_counters (event_data : Event)
  : Eff (option Redis.server) unit :=
  fun redis_client =>
    match redis_client with
    | None => (None, Ok tt)
    | Some r => let '(r', out) := update_counters_on event_data r in (Some r', out)
    end.

Record State : Type := {
  database : Db;
  redis_client : option Redis.server
}.

(** [process_event]: the row is inserted (SQLite stamps it with its own
    clock reading [db_now]), then the counters are updated. *)
Definition process_event (db_now : Z) (event_data : Event) : Eff State unit :=
  fun st =>
    let row := {| e_event_type := event_type event_data;
                  e_user_id := user_id event_data;
                  e_organization_id := organization_id event_data;
                  e_timestamp := db_now;
                  e_data := data event_data;
                  e_ip_address := ip_address event_data;
                  e_user_agent := user_agent event_data |} in
    let db' := {| events := events (database st) ++ [row];
                  tool_usage := tool_usage (database st);
                  payments := payments (database st);
                  subscriptions := subscriptions (database st) |} in
    let '(redis', out) := update_real_time_counters event_data (redis_client st) in
    ({| database := db'; redis_client := redis' |}, out).

(** *** The broadcast hub: [broadcast_to_clients] *)

(** A WebSocket object, named by its identity. *)
Definition WebSocket : Type := nat.

(** The JSON message [{"type", "data", "timestamp"}]. *)
Record Message : Type := {
  msg_type : string;
  msg_data : string;
  msg_timestamp : Z
}.

(** The hub: the global list [active_connections] and, as a trace, the
    messages the transports accepted, oldest first. *)
Record Hub : Type := {
  active_connections : list WebSocket;
  sent : list (WebSocket * Message)
}.

(** [list.remove(x)]: the first occurrence goes, [ValueError] when there is
    none. *)
Fixpoint list_remove (x : WebSocket) (l : list WebSocket) : result (list WebSocket) :=
  match l with
  | [] => Raise (ValueError "list.remove(x): x not in list")
  | y :: l' =>
      if Nat.eqb x y then Ok l'
      else match list_remove x l' with
           | Ok r => Ok (y :: r)
           | Raise e => Raise e
           end
  end.

(** The first loop: one [send_text] per registered connection, in order;
    those whose send raises are appended to [disconnected]. [send_ok] tells
    which transports accept a send during this pass. *)
Fixpoint send_loop (send_ok : WebSocket -> bool) (message : Message)
    (connections : list WebSocket)
  : list (WebSocket * Message) * list WebSocket :=
  match connections with
  | [] => ([], [])
  | connection :: rest =>
      let '(delivered, disconnected) := send_loop send_ok message rest in
      if send_ok connection
      then ((connection, message) :: delivered, disconnected)
      else (delivered, connection :: disconnected)
  end.

(** The second loop: [for conn in disconnected: active_connections.remove(conn)]. *)
Fixpoint remove_loop (disconnected : list WebSocket) : Eff (list WebSocket) unit :=
  match disconnected with
  | [] => ret tt
  | conn :: rest =>
      fun active =>
        match list_remove conn active with
        | Ok active' => remove_loop rest active'
        | Raise e => (active, Raise e)
        end
  end.

Definition broadcast_to_clients (send_ok : WebSocket -> bool)
    (event_type data : string) (now : Z) : Eff Hub unit :=
  fun hub =>
    match active_connections hub with
    | [] => (hub, Ok tt)
    | _ :: _ =>
        let message := {| msg_type := event_type; msg_data := data;
                          msg_timestamp := now |} in
        let '(delivered, disconnected) :=
          send_loop send_ok message (active_connections hub) in
        let '(active', out) := remove_loop disconnected (active_connections hub) in
        ({| active_connections := active'; sent := sent hub ++ delivered |}, out)
    end.

End App.

(** ** [main.py]: event buffer, ingestion path, scoped broadcast *)

Module Main.

(** A payload value, as [float] sees it: [PyNum q] stands for a value
    [float] converts to [q], [PyNonNumeric] for one it rejects ([None], a
    word, a list). *)
Inductive pyval : Type :=
| PyNum (q : Q)
| PyNonNumeric (repr : string).

Definition float (v : pyval) : result Q :=
  match v with
  | PyNum q => Ok q
  | PyNonNumeric s => Raise (ValueError ("could not convert to float: " +:+ s))
  end.

(** The [AnalyticsEvent] model; [event.dict()] has the same fields. *)
Record AnalyticsEvent : Type := {
  event_type : string;
  user_id : string;
  organization_id : string;
  tool_id : option string;
  data : gmap string pyval;
  timestamp : option Z
}.

(** [self.real_time_metrics]. *)
Record Metrics : Type := {
  total_users : Z;
  active_tools : gmap string Z;
  api_calls : Z;
  errors : Z;
  revenue : Q;
  system_load : Q
}.

(** An [AnalyticsProcessor] instance. *)
Record AnalyticsProcessor : Type := {
  data_buffer : list AnalyticsEvent;
  real_time_metrics : Metrics
}.

(** [AnalyticsProcessor.__init__]. *)
Definition init : AnalyticsProcessor :=
  {| data_buffer := [];
     real_time_metrics :=
       {| total_users := 0; active_tools := ∅; api_calls := 0; errors := 0;
          revenue := 0%Q; system_load := 0%Q |} |}.

(** An entry of the anomaly list. *)
Record Anomaly : Type := {
  a_type : string;
  a_user_id : option string;
  a_count : nat;
  a_severity : string
}.

(** The three tables the pandas group-bys produce, in pandas' order. *)
Record Tables : Type := {
  usage_patterns : list ((string * Z) * nat);
  user_behavior : list ((string * string) * nat);
  tool_popularity : list (string * nat)
}.

(** The dictionary [_generate_insights] returns. *)
Inductive Insights : Type :=
| InsightsReport (tables : Tables)
| InsightsMessage (message : string)
| InsightsError (error : exn).

(** The dictionary [process_event] returns. *)
Inductive ProcessingResult : Type :=
| Processed (insights : Insights) (anomalies : list Anomaly) (timestamp : Z)
| NotProcessed (error : exn).

(** What one call draws from outside the processor: the [uuid4] of the
    Redis key, the JSON encoder, the pandas computation over the frame and
    the clock. *)
Record Env : Type := {
  uuid4 : string;
  json_dumps : AnalyticsEvent -> string;
  pandas : list AnalyticsEvent -> result Tables;
  clock : Z
}.

(** The processor together with the global [redis_client]. *)
Record World : Type := {
  processor : AnalyticsProcessor;
  redis_client : option Redis.server
}.

(** [event.tool_id or 'unknown']. *)
Definition tool_or_unknown (o : option string) : string :=
  match o with
  | None => "unknown"
  | Some s => if String.eqb s "" then "unknown" else s
  end.

(** [_update_real_time_metrics]. *)
Definition _update_real_time_metrics (event : AnalyticsEvent) (m : Metrics)
  : result Metrics :=
  if String.eqb (event_type event) "user_login" then
    Ok {| total_users := total_users m + 1; active_tools := active_tools m;
          api_calls := api_calls m; errors := errors m; revenue := revenue m;
          system_load := system_load m |}
  else if String.eqb (event_type event) "tool_usage" then
    let tool_id := tool_or_unknown (tool_id event) in
    Ok {| total_users := total_users m;
          active_tools :=
            <[tool_id := default 0 (active_tools m !! tool_id) + 1]> (active_tools m);
          api_calls := api_calls m; errors := errors m; revenue := revenue m;
          system_load := system_load m |}
  else if String.eqb (event_type event) "api_call" then
    Ok {| total_users := total_users m; active_tools := active_tools m;
          api_calls := api_calls m + 1; errors := errors m; revenue := revenue m;
          system_load := system_load m |}
  else if String.eqb (event_type event) "error" then
    Ok {| total_users := total_users m; active_tools := active_tools m;
          api_calls := api_calls m; errors := errors m + 1; revenue := revenue m;
          system_load := system_load m |}
  else if String.eqb (event_type event) "payment" then
    match float (default (PyNum 0) (data event !! "amount")) with
    | Ok amount =>
        Ok {| total_users := total_users m; active_tools := active_tools m;
              api_calls := api_calls m; errors := errors m;
              revenue := (revenue m + amount)%Q; system_load := system_load m |}
    | Raise e => Raise e
    end
  else Ok m.

(** [_store_in_redis] on a client: the event under a fresh key with a 24
    hour expiry, then the organization hash and its expiry. *)
Definition store_on (env : Env) (event : AnalyticsEvent) : Eff Redis.server unit :=
  let event_key := "event:" +:+ organization_id event +:+ ":" +:+ uuid4 env in
  let! _ := Redis.setex event_key 86400 (json_dumps env event) in
  let org_key := "metrics:" +:+ organization_id event in
  let! _ := Redis.hincrby org_key (event_type event) 1 in
  let! _ := Redis.expire org_key 86400 in
  ret tt.

(** [_store_in_redis]: skipped when [redis_client] is [None]. *)
Definition _store_in_redis (env : Env) (event : AnalyticsEvent)
  : Eff (option Redis.server) unit :=
  fun redis_client =>
    match redis_client with
    | None => (None, Ok tt)
    | Some r => let '(r', out) := store_on env event r in (Some r', out)
    end.

(** [_generate_insights]: the pandas part is [pandas env]; the top-10 and
    top-5 cuts and the handler are the function's own. *)
Definition _generate_insights (env : Env) (self : AnalyticsProcessor)
    (event : AnalyticsEvent) : Insights :=
  if (10 <? length (data_buffer self))%nat then
    match pandas env (last_n 100 (data_buffer self)) with
    | Ok t =>
        InsightsReport
          {| usage_patterns := usage_patterns t;
             user_behavior := firstn 10 (user_behavior t);
             tool_popularity := firstn 5 (tool_popularity t) |}
    | Raise e => InsightsError e
    end
  else InsightsMessage "Insufficient data for insights".

(** [recent_calls]: API calls of the event's user among [data_buffer[-50:]]. *)
Definition recent_calls (self : AnalyticsProcessor) (event : AnalyticsEvent) : nat :=
  count_if (fun e => String.eqb (event_type e) "api_call"
                     && String.eqb (user_id e) (user_id event))
           (last_n 50 (data_buffer self)).

(** [recent_errors]: errors among [data_buffer[-20:]]. *)
Definition recent_errors (self : AnalyticsProcessor) : nat :=
  count_if (fun e => String.eqb (event_type e) "error")
           (last_n 20 (data_buffer self)).

Definition high_api_usage (user : string) (count : nat) : Anomaly :=
  {| a_type := "high_api_usage"; a_user_id := Some user; a_count := count;
     a_severity := "high" |}.

Definition error_spike (count : nat) : Anomaly :=
  {| a_type := "error_spike"; a_user_id := None; a_count := count;
     a_severity := "medium" |}.

(** [_detect_anomalies]. *)
Definition _detect_anomalies (self : AnalyticsProcessor) (event : AnalyticsEvent)
  : list Anomaly :=
  let anomalies := [] in
  let anomalies :=
    if String.eqb (event_type event) "api_call" then
      if (20 <? recent_calls self event)%nat
      then anomalies ++ [high_api_usage (user_id event) (recent_calls self event)]
      else anomalies
    else anomalies in
  let anomalies :=
    if String.eqb (event_type event) "error" then
      if (5 <? recent_errors self)%nat
      then anomalies ++ [error_spike (recent_errors self)]
      else anomalies
    else anomalies in
  anomalies.

(** [process_event]: one handler around the five steps. *)
Definition process_event (env : Env) (event : AnalyticsEvent)
  : World -> World * ProcessingResult :=
  fun w =>
    let self := processor w in
    let buffer := data_buffer self ++ [event] in
    match _update_real_time_metrics event (real_time_metrics self) with
    | Raise e =>
        ({| processor := {| data_buffer := buffer;
                            real_time_metrics := real_time_metrics self |};
            redis_client := redis_client w |},
         NotProcessed e)
    | Ok metrics =>
        let self := {| data_buffer := buffer; real_time_metrics := metrics |} in
        match _store_in_redis env event (redis_client w) with
        | (redis', Raise e) =>
            ({| processor := self; redis_client := redis' |}, NotProcessed e)
        | (redis', Ok _) =>
            let insights := _generate_insights env self event in
            let anomalies := _detect_anomalies self event in
            ({| processor := self; redis_client := redis' |},
             Processed insights anomalies (clock env))
        end
    end.

(** The anomalies a caller finds in the returned dictionary. *)
Definition anomalies_of (r : ProcessingResult) : list Anomaly :=
  match r with
  | Processed _ anomalies _ => anomalies
  | NotProcessed _ => []
  end.

(** One round of [background_analytics_processing]: a buffer longer than
    1000 is cut to its last 1000 entries. *)
Definition background_analytics_processing (self : AnalyticsProcessor)
  : AnalyticsProcessor :=
  if (0 <? length (data_buffer self))%nat then
    if (1000 <? length (data_buffer self))%nat
    then {| data_buffer := last_n 1000 (data_buffer self);
            real_time_metrics := real_time_metrics self |}
    else self
  else self.

(** *** The scoped broadcast: [broadcast_to_organization] *)

Definition WebSocket : Type := nat.

(** An entry of [user_sessions]. *)
Record Session : Type := {
  session_organization_id : string;
  connected_at : Z;
  last_activity : Z
}.

(** The globals [active_connections] (a dictionary, in insertion order) and
    [user_sessions], and the trace of accepted messages. *)
Record Hub (Msg : Type) : Type := {
  active_connections : list (string * WebSocket);
  user_sessions : gmap string Session;
  sent : list (WebSocket * Msg)
}.
Arguments active_connections {Msg} h.
Arguments user_sessions {Msg} h.
Arguments sent {Msg} h.

(** The guard of the loop body. *)
Definition addressed {Msg : Type} (hub : Hub Msg) (organization_id : string)
    (exclude : option string) (conn_id : string) : bool :=
  negb (bool_decide (Some conn_id = exclude))
  && bool_decide (session_organization_id <$> (user_sessions hub !! conn_id)
                  = Some organization_id).

(** The loop: a send that raises is logged and the loop goes on. *)
Fixpoint organization_loop {Msg : Type} (send_ok : WebSocket -> bool)
    (hub : Hub Msg) (organization_id : string) (message : Msg)
    (exclude : option string) (items : list (string * WebSocket))
  : list (WebSocket * Msg) :=
  match items with
  | [] => []
  | (conn_id, websocket) :: rest =>
      let delivered :=
        organization_loop send_ok hub organization_id message exclude rest in
      if addressed hub organization_id exclude conn_id && send_ok websocket
      then (websocket, message) :: delivered
      else delivered
  end.

Definition broadcast_to_organization {Msg : Type} (send_ok : WebSocket -> bool)
    (organization_id : string) (message : Msg) (exclude : option string)
    (hub : Hub Msg) : Hub Msg :=
  {| active_connections := active_connections hub;
     user_sessions := user_sessions hub;
     sent := sent hub ++ organization_loop send_ok hub organization_id message
                           exclude (active_connections hub) |}.

End Main.

(** ** [app.py]: scheduler, queue and endpoints *)

Module AppEndpoints.

(** A row of the [system_metrics] table. *)
Record SystemMetricsRow : Type := {
  sm_timestamp : Z;
  sm_cpu_usage : Q;
  sm_memory_usage : Q;
  sm_active_users : nat;
  sm_api_calls_per_minute : Q;
  sm_error_rate : Q
}.

(** The service: the SQLite file, the global [redis_client], the Redis list
    "analytics_queue" (it lives on the same server; no other command of the
    service names that key, so it is kept beside the key space) and the
    connections. *)
Record Service : Type := {
  db : App.Db;
  system_metrics : list SystemMetricsRow;
  redis_client : option Redis.server;
  analytics_queue : list App.Event;
  hub : App.Hub
}.

(** [store_system_metrics]: one row, stamped by SQLite. *)
Definition store_system_metrics (db_now : Z) (metrics : App.MetricsSnapshot)
    (rows : list SystemMetricsRow) : list SystemMetricsRow :=
  rows ++ [{| sm_timestamp := db_now;
              sm_cpu_usage := App.cpu_usage metrics;
              sm_memory_usage := App.memory_usage metrics;
              sm_active_users := App.active_users metrics;
              sm_api_calls_per_minute := App.api_calls_per_minute metrics;
              sm_error_rate := App.error_rate metrics |}].

(** One round of the loop of [update_real_time_metrics]: compute, cache for
    60 seconds when there is a client, broadcast, persist. An exception
    ends the round (it is logged, the loop sleeps and goes on); it is
    returned here beside the state the round leaves. [now], [sent_at] and
    [db_now] are the clock readings of the three steps. *)
Definition update_real_time_metrics (json_dumps : App.MetricsSnapshot -> string)
    (send_ok : App.WebSocket -> bool) (host : App.Host) (now sent_at db_now : Z)
  : Eff Service unit :=
  fun s =>
    let metrics := App.calculate_real_time_metrics (db s) now host in
    let '(redis', cached) :=
      match redis_client s with
      | None => (None, Ok true)
      | Some r =>
          let '(r', out) := Redis.setex "real_time_metrics" 60 (json_dumps metrics) r in
          (Some r', out)
      end in
    match cached with
    | Raise e =>
        ({| db := db s; system_metrics := system_metrics s; redis_client := redis';
            analytics_queue := analytics_queue s; hub := hub s |}, Raise e)
    | Ok _ =>
        let '(hub', out) :=
          App.broadcast_to_clients send_ok "metrics_update" (json_dumps metrics)
            sent_at (hub s) in
        match out with
        | Raise e =>
            ({| db := db s; system_metrics := system_metrics s; redis_client := redis';
                analytics_queue := analytics_queue s; hub := hub' |}, Raise e)
        | Ok _ =>
            ({| db := db s;
                system_metrics := store_system_metrics db_now metrics (system_metrics s);
                redis_client := redis';
                analytics_queue := analytics_queue s; hub := hub' |}, Ok tt)
        end
    end.

(** What an endpoint answers. *)
Inductive Response : Type :=
| Success (message : string)
| HTTPException (status_code : Z) (detail : string).

(** [track_event]: with a client the event is pushed on the queue, without
    one it is processed at once; any exception becomes a 500. *)
Definition track_event (db_now : Z) (event : App.Event) : Service -> Service * Response :=
  fun s =>
    match redis_client s with
    | Some r =>
        if Redis.reachable r
        then ({| db := db s; system_metrics := system_metrics s;
                 redis_client := redis_client s;
                 analytics_queue := analytics_queue s ++ [event]; hub := hub s |},
              Success "Event tracked successfully")
        else (s, HTTPException 500 "Failed to track event")
    | None =>
        let '(st, out) :=
          App.process_event db_now event
            {| App.database := db s; App.redis_client := None |} in
        ({| db := App.database st; system_metrics := system_metrics s;
            redis_client := App.redis_client st;
            analytics_queue := analytics_queue s; hub := hub s |},
         match out with
         | Ok _ => Success "Event tracked successfully"
         | Raise _ => HTTPException 500 "Failed to track event"
         end)
    end.

(** One round of the loop of [process_analytics_queue]: with a client, the
    head of the queue is popped and processed; an exception is logged. *)
Definition process_analytics_queue (db_now : Z) : Eff Service unit :=
  fun s =>
    match redis_client s with
    | None => (s, Ok tt)
    | Some r =>
        if Redis.reachable r then
          match analytics_queue s with
          | [] => (s, Ok tt)
          | event :: rest =>
              let '(st, out) :=
                App.process_event db_now event
                  {| App.database := db s; App.redis_client := redis_client s |} in
              ({| db := App.database st; system_metrics := system_metrics s;
                  redis_client := App.redis_client st;
                  analytics_queue := rest; hub := hub s |}, out)
          end
        else (s, Raise (ConnectionError "Error connecting to Redis"))
    end.

(** The loop over successive rounds, one clock reading each. *)
Definition drain (times : list Z) (s : Service) : Service :=
  fold_left (fun s db_now => fst (process_analytics_queue db_now s)) times s.

(** [websocket_endpoint], on connect: the socket is registered; with a
    client, the cached snapshot, when there is one, is pushed to it. The
    value is the text pushed. *)
Definition websocket_connect (send_ok : App.WebSocket -> bool) (websocket : App.WebSocket)
  : Eff Service (option string) :=
  fun s =>
    let hub' := {| App.active_connections := App.active_connections (hub s) ++ [websocket];
                   App.sent := App.sent (hub s) |} in
    match redis_client s with
    | None =>
        ({| db := db s; system_metrics := system_metrics s; redis_client := None;
            analytics_queue := analytics_queue s; hub := hub' |}, Ok None)
    | Some r =>
        let '(r', out) := Redis.get "real_time_metrics" r in
        let s' := {| db := db s; system_metrics := system_metrics s;
                     redis_client := Some r';
                     analytics_queue := analytics_queue s; hub := hub' |} in
        match out with
        | Raise e => (s', Raise e)
        | Ok None => (s', Ok None)
        | Ok (Some metrics) =>
            if String.eqb metrics "" then (s', Ok None)
            else if send_ok websocket then (s', Ok (Some metrics))
            else (s', Raise (ConnectionError "send failed"))
        end
    end.

(** [websocket_endpoint], the [finally] block: the socket is removed when it
    is still registered. *)
Definition websocket_finally (websocket : App.WebSocket) : Eff App.Hub unit :=
  fun h =>
    if existsb (Nat.eqb websocket) (App.active_connections h) then
      match App.list_remove websocket (App.active_connections h) with
      | Ok active => ({| App.active_connections := active; App.sent := App.sent h |}, Ok tt)
      | Raise e => (h, Raise e)
      end
    else (h, Ok tt).

(** [DATE(timestamp)] and [datetime.now().date()]: the day an instant
    falls in. *)
Definition date_of (instant : Z) : Z := instant / App.one_day.

(** The answer of [get_revenue_summary]. *)
Record RevenueSummary : Type := {
  revenue_today : Q;
  total_revenue : Q;
  mrr : Q;
  arr : Q;
  payment_count : nat;
  avg_payment : Q
}.

(** The payments of the calendar day of [now]. *)
Definition payments_of_today (store : App.Db) (now : Z) : list App.PaymentRow :=
  List.filter (fun p => Z.eqb (date_of (App.p_timestamp p)) (date_of now)
                        && App.is_completed p)
              (App.payments store).

(** [get_revenue_summary]. *)
Definition get_revenue_summary (store : App.Db) (now : Z) : RevenueSummary :=
  let revenue_today := Qsum (map App.p_amount (payments_of_today store now)) in
  let total_revenue := Qsum (map App.p_amount
                               (List.filter App.is_completed (App.payments store))) in
  let mrr := Qsum (map App.s_amount
                     (List.filter App.is_active_monthly (App.subscriptions store))) in
  let payment_count := length (List.filter App.is_completed (App.payments store)) in
  {| revenue_today := round2 revenue_today;
     total_revenue := round2 total_revenue;
     mrr := round2 mrr;
     arr := round2 (mrr * 12);
     payment_count := payment_count;
     avg_payment :=
       if (0 <? payment_count)%nat
       then round2 (total_revenue / inject_Z (Z.of_nat payment_count))
       else 0%Q |}.

End AppEndpoints.

(** ** [main.py]: dashboard, connections and start-up *)

Module MainEndpoints.

(** The dictionary [get_real_time_dashboard_data] returns. *)
Inductive Dashboard : Type :=
| DashboardData (real_time_metrics : Main.Metrics)
    (organization_metrics : gmap string Z) (active_users : nat) (timestamp : Z)
    (hourly_trends : option (list (Z * nat)))
| DashboardError (error : exn).

(** [len([s for s in user_sessions.values() if ...])]. *)
Definition sessions_of (user_sessions : gmap string Main.Session)
    (organization_id : string) : nat :=
  length (List.filter
            (fun kv => String.eqb (Main.session_organization_id (snd kv)) organization_id)
            (map_to_list user_sessions)).

(** [get_real_time_dashboard_data]; [hourly] is the pandas group-by over
    the frame, [now] the clock. *)
Definition get_real_time_dashboard_data
    (hourly : list Main.AnalyticsEvent -> result (list (Z * nat))) (now : Z)
    (user_sessions : gmap string Main.Session) (organization_id : string)
    (w : Main.World) : Dashboard :=
  let self := Main.processor w in
  let fetched :=
    match Main.redis_client w with
    | Some r => snd (Redis.hgetall ("metrics:" +:+ organization_id) r)
    | None => Ok ∅
    end in
  match fetched with
  | Raise e => DashboardError e
  | Ok metrics =>
      if (20 <? length (Main.data_buffer self))%nat then
        match hourly (last_n 100 (Main.data_buffer self)) with
        | Ok trends =>
            DashboardData (Main.real_time_metrics self) metrics
              (sessions_of user_sessions organization_id) now (Some trends)
        | Raise e => DashboardError e
        end
      else
        DashboardData (Main.real_time_metrics self) metrics
          (sessions_of user_sessions organization_id) now None
  end.

(** [d[key] = value] on a dictionary kept in insertion order. *)
Fixpoint dict_set {V : Type} (key : string) (v : V) (d : list (string * V))
  : list (string * V) :=
  match d with
  | [] => [(key, v)]
  | (k, x) :: rest =>
      if String.eqb k key then (k, v) :: rest else (k, x) :: dict_set key v rest
  end.

(** [del d[key]] behind [if key in d]. *)
Definition dict_del {V : Type} (key : string) (d : list (string * V))
  : list (string * V) :=
  List.filter (fun kv => negb (String.eqb (fst kv) key)) d.

(** [websocket_endpoint], on connect: both registries get the new id. *)
Definition websocket_connect {Msg : Type} (connection_id : string)
    (websocket : Main.WebSocket) (organization_id : string) (now : Z)
    (h : Main.Hub Msg) : Main.Hub Msg :=
  {| Main.active_connections := dict_set connection_id websocket (Main.active_connections h);
     Main.user_sessions :=
       <[connection_id := {| Main.session_organization_id := organization_id;
                             Main.connected_at := now;
                             Main.last_activity := now |}]> (Main.user_sessions h);
     Main.sent := Main.sent h |}.

(** [websocket_endpoint], the [finally] block. *)
Definition websocket_finally {Msg : Type} (connection_id : string)
    (h : Main.Hub Msg) : Main.Hub Msg :=
  {| Main.active_connections := dict_del connection_id (Main.active_connections h);
     Main.user_sessions := delete connection_id (Main.user_sessions h);
     Main.sent := Main.sent h |}.

(** [startup_event]: the client is bound before the ping; the background
    task is started only when the ping went through. The boolean tells
    whether it was. *)
Definition startup_event (server : Redis.server) (w : Main.World) : Main.World * bool :=
  ({| Main.processor := Main.processor w; Main.redis_client := Some server |},
   Redis.reachable server).

End MainEndpoints.

(** * Vocabulary of the statements and sample data *)

(** The window as the specification words it: the closed interval from one
    hour before [now] to [now]. *)
Definition spec_window (db : App.Db) (now : Z) : list App.EventRow :=
  List.filter
    (fun e => (now - App.one_hour <=? App.e_timestamp e) && (App.e_timestamp e <=? now))
    (App.events db).

(** The error rate of the specification: errors over total in
    [spec_window], as a percentage, 0 for an empty window. *)
Definition spec_error_rate (db : App.Db) (now : Z) : Q :=
  let total := length (spec_window db now) in
  let errors := count_if App.is_error_event (spec_window db now) in
  if (0 <? total)%nat
  then (inject_Z (Z.of_nat errors) / inject_Z (Z.of_nat total) * 100)%Q
  else 0%Q.

Definition plain_event (type : string) (user : option string) (ts : Z) : App.EventRow :=
  {| App.e_event_type := type; App.e_user_id := user;
     App.e_organization_id := None; App.e_timestamp := ts; App.e_data := "{}";
     App.e_ip_address := None; App.e_user_agent := None |}.

Definition events_only (l : list App.EventRow) : App.Db :=
  {| App.events := l; App.tool_usage := []; App.payments := [];
     App.subscriptions := [] |}.

(** Agreement of two snapshots on every field but [timestamp], [cpu_usage]
    and [memory_usage]. *)
Definition agree_beside_clock_and_host (s1 s2 : App.MetricsSnapshot) : Prop :=
  App.active_users s1 = App.active_users s2 /\
  (App.api_calls_per_minute s1 == App.api_calls_per_minute s2)%Q /\
  (App.error_rate s1 == App.error_rate s2)%Q /\
  App.tools_used_last_hour s1 = App.tools_used_last_hour s2 /\
  (App.revenue_today s1 == App.revenue_today s2)%Q /\
  (App.total_revenue s1 == App.total_revenue s2)%Q /\
  (App.mrr s1 == App.mrr s2)%Q /\
  (App.arr s1 == App.arr s2)%Q /\
  App.total_events_last_hour s1 = App.total_events_last_hour s2 /\
  App.system_health s1 = App.system_health s2.

(** The same, leaving [system_health] aside. *)
Definition agree_on_store_fields (s1 s2 : App.MetricsSnapshot) : Prop :=
  App.active_users s1 = App.active_users s2 /\
  (App.api_calls_per_minute s1 == App.api_calls_per_minute s2)%Q /\
  (App.error_rate s1 == App.error_rate s2)%Q /\
  App.tools_used_last_hour s1 = App.tools_used_last_hour s2 /\
  (App.revenue_today s1 == App.revenue_today s2)%Q /\
  (App.total_revenue s1 == App.total_revenue s2)%Q /\
  (App.mrr s1 == App.mrr s2)%Q /\
  (App.arr s1 == App.arr s2)%Q /\
  App.total_events_last_hour s1 = App.total_events_last_hour s2.

Definition idle_host : App.Host :=
  {| App.cpu_percent := 10; App.virtual_memory_percent := 40 |}.

Definition busy_host : App.Host :=
  {| App.cpu_percent := 90; App.virtual_memory_percent := 40 |}.

Definition page_view_by_u1 : App.Event :=
  {| App.event_type := "page_view"; App.user_id := Some "u1";
     App.organization_id := None; App.data := "{}";
     App.ip_address := None; App.user_agent := None |}.

Definition empty_redis : Redis.server :=
  {| Redis.reachable := true; Redis.db := ∅ |}.

(** The deliveries of one pass of [broadcast_to_clients]: the message, to
    each registered connection whose transport accepts it, in order. *)
Definition deliveries (send_ok : App.WebSocket -> bool) (message : App.Message)
    (connections : list App.WebSocket) : list (App.WebSocket * App.Message) :=
  map (fun c => (c, message)) (List.filter send_ok connections).

Definition acme_session : Main.Session :=
  {| Main.session_organization_id := "acme"; Main.connected_at := 0;
     Main.last_activity := 0 |}.

Definition acme_hub : Main.Hub string :=
  {| Main.active_connections := [("c1", 1%nat); ("c2", 2%nat)];
     Main.user_sessions := <["c1" := acme_session]> (<["c2" := acme_session]> ∅);
     Main.sent := [] |}.

(** The buffer once [process_event] has appended the event. *)
Definition buffer_after (w : Main.World) (event : Main.AnalyticsEvent)
  : list Main.AnalyticsEvent :=
  Main.data_buffer (Main.processor w) ++ [event].

(** API-call events of [user] among the trailing 50 entries of a buffer. *)
Definition api_calls_in_window (buffer : list Main.AnalyticsEvent) (user : string) : nat :=
  count_if (fun e => String.eqb (Main.event_type e) "api_call"
                     && String.eqb (Main.user_id e) user)
           (last_n 50 buffer).

(** Error events among the trailing 20 entries of a buffer. *)
Definition errors_in_window (buffer : list Main.AnalyticsEvent) : nat :=
  count_if (fun e => String.eqb (Main.event_type e) "error") (last_n 20 buffer).

(** The cache step of this call goes through. *)
Definition store_succeeds (env : Main.Env) (event : Main.AnalyticsEvent)
    (w : Main.World) : Prop :=
  snd (Main._store_in_redis env event (Main.redis_client w)) = Ok tt.

Definition simple_event (type user : string) : Main.AnalyticsEvent :=
  {| Main.event_type := type; Main.user_id := user; Main.organization_id := "acme";
     Main.tool_id := None; Main.data := ∅; Main.timestamp := None |}.

Definition quiet_env : Main.Env :=
  {| Main.uuid4 := "0000";
     Main.json_dumps := fun _ => "{}";
     Main.pandas := fun _ =>
       Ok {| Main.usage_patterns := []; Main.user_behavior := [];
             Main.tool_popularity := [] |};
     Main.clock := 0 |}.

(** A world whose buffer is [buffer], without a Redis client. *)
Definition world_of (buffer : list Main.AnalyticsEvent) : Main.World :=
  {| Main.processor :=
       {| Main.data_buffer := buffer;
          Main.real_time_metrics := Main.real_time_metrics Main.init |};
     Main.redis_client := None |}.

(** The same with a client whose server cannot be reached. *)
Definition world_redis_down (buffer : list Main.AnalyticsEvent) : Main.World :=
  {| Main.processor := Main.processor (world_of buffer);
     Main.redis_client := Some {| Redis.reachable := false; Redis.db := ∅ |} |}.

(** What happens to the processor over time: an ingest, or a round of the
    background task. *)
Inductive Step : Type :=
| Ingest (env : Main.Env) (event : Main.AnalyticsEvent)
| Background.

Definition step (w : Main.World) (s : Step) : Main.World :=
  match s with
  | Ingest env event => fst (Main.process_event env event w)
  | Background =>
      {| Main.processor := Main.background_analytics_processing (Main.processor w);
         Main.redis_client := Main.redis_client w |}
  end.

Definition run (steps : list Step) (w : Main.World) : Main.World :=
  fold_left step steps w.

(** The events a run ingests, in order of arrival. *)
Definition ingested (steps : list Step) : list Main.AnalyticsEvent :=
  flat_map (fun s => match s with Ingest _ event => [event] | Background => [] end) steps.

Definition payment_with_bad_amount : Main.AnalyticsEvent :=
  {| Main.event_type := "payment"; Main.user_id := "A"; Main.organization_id := "acme";
     Main.tool_id := None;
     Main.data := {[ "amount" := Main.PyNonNumeric "abc" ]};
     Main.timestamp := None |}.

(** An environment whose pandas computation raises. *)
Definition broken_frame_env : Main.Env :=
  {| Main.uuid4 := "0000";
     Main.json_dumps := fun _ => "{}";
     Main.pandas := fun _ => Raise (ValueError "bad frame");
     Main.clock := 0 |}.

(** The number of events of one type in a list. *)
Definition count_type (type : string) (events : list Main.AnalyticsEvent) : Z :=
  Z.of_nat (count_if (fun e => String.eqb (Main.event_type e) type) events).

(** The dictionaries a run returns to its callers, one per ingest. *)
Fixpoint results (steps : list Step) (w : Main.World) : list Main.ProcessingResult :=
  match steps with
  | [] => []
  | Ingest env event :: rest =>
      snd (Main.process_event env event w) :: results rest (step w (Ingest env event))
  | Background :: rest => results rest (step w Background)
  end.

(** The row [process_event] of [app.py] inserts for an event. *)
Definition row_of (event : App.Event) (db_now : Z) : App.EventRow :=
  {| App.e_event_type := App.event_type event;
     App.e_user_id := App.user_id event;
     App.e_organization_id := App.organization_id event;
     App.e_timestamp := db_now;
     App.e_data := App.data event;
     App.e_ip_address := App.ip_address event;
     App.e_user_agent := App.user_agent event |}.

(** The rows a queue of events gives when each is processed at the
    matching clock reading. *)
Fixpoint rows_of (events : list App.Event) (times : list Z) : list App.EventRow :=
  match events, times with
  | event :: events', db_now :: times' => row_of event db_now :: rows_of events' times'
  | _, _ => []
  end.

(** The deliveries of one pass of [broadcast_to_organization]. *)
Definition scoped_deliveries {Msg : Type} (send_ok : Main.WebSocket -> bool)
    (organization_id : string) (message : Msg) (exclude : option string)
    (hub : Main.Hub Msg) : list (Main.WebSocket * Msg) :=
  Main.organization_loop send_ok hub organization_id message exclude
    (Main.active_connections hub).

(** The Redis keys [_store_in_redis] writes. *)
Definition org_key (organization_id : string) : string :=
  "metrics:" +:+ organization_id.

Definition event_key (env : Main.Env) (event : Main.AnalyticsEvent) : string :=
  "event:" +:+ Main.organization_id event +:+ ":" +:+ Main.uuid4 env.

(** The counters Redis holds for an organization, none when the key is
    missing. *)
Definition org_hash (r : Redis.server) (organization_id : string) : gmap string Z :=
  match Redis.db r !! org_key organization_id with
  | Some {| Redis.value := Redis.RHash h |} => h
  | _ => ∅
  end.

(** The organization key is free or holds a hash. *)
Definition org_key_usable (r : Redis.server) (organization_id : string) : bool :=
  match Redis.db r !! org_key organization_id with
  | None => true
  | Some {| Redis.value := Redis.RHash _ |} => true
  | Some _ => false
  end.

(** The organization's counter of an event type cannot take one more. *)
Definition org_counter_full (r : Redis.server) (organization_id type : string) : bool :=
  Redis.overflows (default 0 (org_hash r organization_id !! type)) 1.

(** The key space after a successful [_store_in_redis]. *)
Definition stored_db (env : Main.Env) (event : Main.AnalyticsEvent) (r : Redis.server)
  : gmap string Redis.entry :=
  let h := org_hash r (Main.organization_id event) in
  <[org_key (Main.organization_id event) :=
      {| Redis.value :=
           Redis.RHash (<[Main.event_type event :=
                            default 0 (h !! Main.event_type event) + 1]> h);
         Redis.ttl := Some 86400 |}]>
    (<[event_key env event :=
         {| Redis.value := Redis.RStr (Main.json_dumps env event);
            Redis.ttl := Some 86400 |}]> (Redis.db r)).

(** A pandas grouping that finds nothing. *)
Definition no_trends : list Main.AnalyticsEvent -> result (list (Z * nat)) :=
  fun _ => Ok [].

(** The integer a counter key holds, 0 for a missing key. *)
Definition counter (r : Redis.server) (key : string) : Z :=
  match Redis.db r !! key with
  | Some {| Redis.value := Redis.RInt n |} => n
  | _ => 0
  end.

(** The message a round of [update_real_time_metrics] broadcasts. *)
Definition metrics_update (json_dumps : App.MetricsSnapshot -> string)
    (metrics : App.MetricsSnapshot) (sent_at : Z) : App.Message :=
  {| App.msg_type := "metrics_update"; App.msg_data := json_dumps metrics;
     App.msg_timestamp := sent_at |}.

(** The hub after a pass that broadcast [message]. *)
Definition hub_after (send_ok : App.WebSocket -> bool) (message : App.Message)
    (h : App.Hub) : App.Hub :=
  {| App.active_connections := List.filter send_ok (App.active_connections h);
     App.sent := App.sent h ++ deliveries send_ok message (App.active_connections h) |}.

(** A service with nothing stored, nobody connected and the given client. *)
Definition fresh_service (client : option Redis.server) : AppEndpoints.Service :=
  {| AppEndpoints.db := events_only [];
     AppEndpoints.system_metrics := [];
     AppEndpoints.redis_client := client;
     AppEndpoints.analytics_queue := [];
     AppEndpoints.hub := {| App.active_connections := []; App.sent := [] |} |}.

(** A JSON encoder for the examples. *)
Definition sample_json : App.MetricsSnapshot -> string := fun _ => "{...}".

(** Tracking a list of events, one call of [track_event] each. *)
Definition track_all (calls : list (Z * App.Event)) (s : AppEndpoints.Service)
  : AppEndpoints.Service :=
  fold_left (fun s call => fst (AppEndpoints.track_event (fst call) (snd call) s)) calls s.

(** * Properties *)

(** ** Rationals and lists *)

Lemma Qltb_lt (x y : Q) : Qltb x y = true <-> (x < y)%Q.
Proof. unfold Qltb, Qlt. apply Z.ltb_lt. Qed.

Lemma Qltb_ge (x y : Q) : Qltb x y = false <-> (y <= x)%Q.
Proof. unfold Qltb, Qle. rewrite Z.ltb_ge. reflexivity. Qed.

Lemma Qltb_proper (x x' y y' : Q) :
  (x == x')%Q -> (y == y')%Q -> Qltb x y = Qltb x' y'.
Proof.
  intros Hx Hy.
  destruct (Qltb x' y') eqn:E.
  - apply Qltb_lt. rewrite Hx, Hy. now apply Qltb_lt.
  - apply Qltb_ge. rewrite Hx, Hy. now apply Qltb_ge.
Qed.

Lemma count_if_le {A : Type} (p : A -> bool) (l : list A) :
  (count_if p l <= length l)%nat.
Proof. unfold count_if. apply filter_length_le. Qed.

(** A percentage of a part in a whole lies between 0 and 100. *)
Lemma percentage_bounds (part whole : nat) :
  (part <= whole)%nat -> (0 < whole)%nat ->
  (0 <= inject_Z (Z.of_nat part) / inject_Z (Z.of_nat whole) * 100 <= 100)%Q.
Proof.
  intros Hle Hpos.
  assert (Hw : (0 < inject_Z (Z.of_nat whole))%Q).
  { change 0%Q with (inject_Z 0). rewrite <- Zlt_Qlt. lia. }
  assert (Hp : (0 <= inject_Z (Z.of_nat part))%Q).
  { change 0%Q with (inject_Z 0). rewrite <- Zle_Qle. lia. }
  assert (Hpw : (inject_Z (Z.of_nat part) <= inject_Z (Z.of_nat whole))%Q).
  { rewrite <- Zle_Qle. lia. }
  assert (H0 : (0 <= inject_Z (Z.of_nat part) / inject_Z (Z.of_nat whole))%Q).
  { apply Qle_shift_div_l; [exact Hw|]. now rewrite Qmult_0_l. }
  assert (H1 : (inject_Z (Z.of_nat part) / inject_Z (Z.of_nat whole) <= 1)%Q).
  { apply Qle_shift_div_r; [exact Hw|]. now rewrite Qmult_1_l. }
  split.
  - apply Qmult_le_0_compat; [exact H0 | discriminate].
  - change (100%Q) with (1 * 100)%Q at 2.
    apply Qmult_le_compat_r; [exact H1 | discriminate].
Qed.

(** ** The error rate of [calculate_real_time_metrics] *)

Section ErrorRate.

Variable db : App.Db.
Variable now : Z.

Let window := App.events_since (App.hour_ago now) db.

(** The rows the error-rate query reads are those stamped strictly later
    than one hour before [now]. *)
Lemma events_since_hour_ago (e : App.EventRow) :
  In e window <-> In e (App.events db) /\ now - App.one_hour < App.e_timestamp e.
Proof.
  unfold window, App.events_since, App.hour_ago.
  rewrite List.filter_In, Z.ltb_lt. reflexivity.
Qed.

Lemma error_rate_empty :
  length window = 0%nat -> App.Calc.error_rate db now = 0%Q.
Proof.
  intros H. unfold App.Calc.error_rate, App.Calc.result. cbn [fst snd].
  fold window. now rewrite H.
Qed.

Lemma error_rate_nonempty :
  length window <> 0%nat ->
  App.Calc.error_rate db now =
  (inject_Z (Z.of_nat (count_if App.is_error_event window))
   / inject_Z (Z.of_nat (length window)) * 100)%Q.
Proof.
  intros H. unfold App.Calc.error_rate, App.Calc.result. cbn [fst snd].
  fold window.
  destruct (0 <? length window)%nat eqn:E; [reflexivity|].
  apply Nat.ltb_ge in E. lia.
Qed.

End ErrorRate.

(** C1, as stated, fails at the left end of the window: a store whose only
    row is an error event stamped exactly one hour before [now]. The closed
    window holds it (rate 100), the query [timestamp > hour_ago] does not
    (rate 0). *)
Lemma error_rate_window_boundary :
  let db := events_only [plain_event "api_error" (Some "u1") 0] in
  let now := App.one_hour in
  (spec_error_rate db now == 100)%Q /\
  App.Calc.error_rate db now = 0%Q /\
  ~ (App.Calc.error_rate db now == spec_error_rate db now)%Q.
Proof.
  cbv zeta. split; [|split].
  - vm_compute. reflexivity.
  - vm_compute. reflexivity.
  - vm_compute. discriminate.
Qed.

(** C1, amended: for every store and every [now], the error rate is taken
    over the events stamped strictly later than [now - 1h]; it is the share
    of error events among them as a percentage, 0 when there are none (no
    division by zero), between 0 and 100 otherwise, and 0 when none of them
    is an error event. *)
Theorem error_rate_is_window_percentage (db : App.Db) (now : Z) :
  let window := App.events_since (App.hour_ago now) db in
  let errors := count_if App.is_error_event window in
  let total := length window in
  (forall e, In e window <->
             In e (App.events db) /\ now - App.one_hour < App.e_timestamp e) /\
  (total = 0%nat -> App.Calc.error_rate db now = 0%Q) /\
  (total <> 0%nat ->
     App.Calc.error_rate db now
       = (inject_Z (Z.of_nat errors) / inject_Z (Z.of_nat total) * 100)%Q /\
     (0 <= App.Calc.error_rate db now <= 100)%Q /\
     (errors = 0%nat -> (App.Calc.error_rate db now == 0)%Q)).
Proof.
  cbv zeta. split; [|split].
  - apply events_since_hour_ago.
  - apply error_rate_empty.
  - intros Hne. rewrite (error_rate_nonempty db now Hne).
    split; [reflexivity|]. split.
    + apply percentage_bounds; [apply count_if_le | lia].
    + intros ->. cbn [Z.of_nat]. unfold Qdiv. now rewrite !Qmult_0_l.
Qed.

(** Where no stored event is stamped later than [now] or exactly one hour
    before it, the closed window and the query read the same rows. *)
Lemma error_rate_meets_spec (db : App.Db) (now : Z) :
  (forall e, In e (App.events db) ->
             App.e_timestamp e <= now /\ App.e_timestamp e <> now - App.one_hour) ->
  App.Calc.error_rate db now = spec_error_rate db now.
Proof.
  intros H.
  assert (Hw : spec_window db now = App.events_since (App.hour_ago now) db).
  { unfold spec_window, App.events_since, App.hour_ago.
    apply filter_ext_in. intros e He. destruct (H e He) as [H1 H2].
    destruct (Z.ltb_spec (now - App.one_hour) (App.e_timestamp e));
      destruct (Z.leb_spec (now - App.one_hour) (App.e_timestamp e));
      destruct (Z.leb_spec (App.e_timestamp e) now); cbn; try reflexivity; lia. }
  unfold spec_error_rate, App.Calc.error_rate, App.Calc.result. cbn [fst snd].
  now rewrite Hw.
Qed.

(** ** The health field *)

Lemma system_health_healthy (error_rate cpu_usage : Q) :
  App.Calc.system_health error_rate cpu_usage = "healthy"
  <-> (error_rate < 5)%Q /\ (cpu_usage < 80)%Q.
Proof.
  unfold App.Calc.system_health.
  rewrite <- !Qltb_lt.
  destruct (Qltb error_rate 5), (Qltb cpu_usage 80); cbn; split;
    try discriminate; try tauto; intros [? ?]; discriminate.
Qed.

Lemma system_health_cases (error_rate cpu_usage : Q) :
  App.Calc.system_health error_rate cpu_usage = "healthy" \/
  App.Calc.system_health error_rate cpu_usage = "warning".
Proof.
  unfold App.Calc.system_health.
  destruct (Qltb error_rate 5 && Qltb cpu_usage 80); [left | right]; reflexivity.
Qed.

(** Health depends on the two numbers only, not on how they are written as
    fractions. *)
Lemma system_health_proper (e e' c c' : Q) :
  (e == e')%Q -> (c == c')%Q ->
  App.Calc.system_health e c = App.Calc.system_health e' c'.
Proof.
  intros He Hc. unfold App.Calc.system_health.
  now rewrite (Qltb_proper e e' 5 5 He (Qeq_refl 5)),
              (Qltb_proper c c' 80 80 Hc (Qeq_refl 80)).
Qed.

(** C7, amended: in every snapshot the health field is "healthy" exactly
    when the error rate computed for that snapshot, before it is rounded to
    two decimals for the [error_rate] field, is below 5 and the sampled CPU
    usage is below 80, and "warning" in every other case; it is one fixed
    function of these two values. *)
Theorem health_is_function_of_error_rate_and_cpu :
  exists f : Q -> Q -> string,
    forall (db : App.Db) (now : Z) (host : App.Host),
      let s := App.calculate_real_time_metrics db now host in
      App.system_health s = f (App.Calc.error_rate db now) (App.cpu_usage s) /\
      (App.system_health s = "healthy"
       <-> (App.Calc.error_rate db now < 5)%Q /\ (App.cpu_usage s < 80)%Q) /\
      (App.system_health s = "warning"
       <-> ~ ((App.Calc.error_rate db now < 5)%Q /\ (App.cpu_usage s < 80)%Q)).
Proof.
  exists App.Calc.system_health. intros db now host. cbv zeta.
  cbn [App.calculate_real_time_metrics App.system_health App.cpu_usage].
  split; [reflexivity|]. split.
  - apply system_health_healthy.
  - rewrite <- system_health_healthy.
    destruct (system_health_cases (App.Calc.error_rate db now) (App.cpu_percent host))
      as [H | H]; rewrite H; split; intros H'; try discriminate; try reflexivity.
    now destruct H'.
Qed.

(** The value compared with 5 is the error rate before rounding. The
    [error_rate] field holds it rounded to two decimals, so a snapshot may
    show 5.00 next to "healthy": 50 error events among 1001. *)
Lemma health_uses_unrounded_error_rate :
  let rows := repeat (plain_event "api_error" None 1) 50
              ++ repeat (plain_event "page_view" None 1) 951 in
  let s := App.calculate_real_time_metrics (events_only rows) 2
             {| App.cpu_percent := 10; App.virtual_memory_percent := 10 |} in
  (App.error_rate s == 5)%Q /\ App.system_health s = "healthy".
Proof. cbv zeta. split; vm_compute; reflexivity. Qed.

(** C7, as stated, fails on the fields a snapshot carries. With 50 error
    events among 1001 the rate is about 4.995: the [error_rate] field reads
    5.00, which is not below 5, yet health is "healthy". With 5 error events
    among 100 the field reads 5.00 as well, with the same CPU usage, and
    health is "warning": health is no function of the two fields. *)
Lemma health_not_determined_by_snapshot_fields :
  let just_below := repeat (plain_event "api_error" None 1) 50
                    ++ repeat (plain_event "page_view" None 1) 951 in
  let exactly_five := repeat (plain_event "api_error" None 1) 5
                      ++ repeat (plain_event "page_view" None 1) 95 in
  let s1 := App.calculate_real_time_metrics (events_only just_below) 2 idle_host in
  let s2 := App.calculate_real_time_metrics (events_only exactly_five) 2 idle_host in
  ~ (App.system_health s1 = "healthy"
     <-> (App.error_rate s1 < 5)%Q /\ (App.cpu_usage s1 < 80)%Q) /\
  (App.error_rate s1 == App.error_rate s2)%Q /\
  (App.cpu_usage s1 == App.cpu_usage s2)%Q /\
  App.system_health s1 = "healthy" /\
  App.system_health s2 = "warning".
Proof.
  cbv zeta.
  split; [|split; [|split; [|split]]]; [|vm_compute; reflexivity ..].
  intros [H _].
  assert (Hh : App.system_health
                 (App.calculate_real_time_metrics
                    (events_only (repeat (plain_event "api_error" None 1) 50
                                  ++ repeat (plain_event "page_view" None 1) 951))
                    2 idle_host) = "healthy") by (vm_compute; reflexivity).
  destruct (H Hh) as [Hlt _]. vm_compute in Hlt. discriminate Hlt.
Qed.

(** ** Two runs of the aggregator *)

(** C9, as stated, fails in two ways. The windows follow the clock: a row
    stamped one hour before the second reading is counted by the first run
    and not by the second, one microsecond later, so [active_users] goes
    from 1 to 0 on an unchanged store. And [system_health] follows the CPU
    sample: on the same store and the same clock reading it is "healthy"
    at 10 percent and "warning" at 90. *)
Lemma two_runs_differ :
  let db := events_only [plain_event "page_view" (Some "u1") 0] in
  (App.active_users (App.calculate_real_time_metrics db (App.one_hour - 1) idle_host)
     = 1%nat /\
   App.active_users (App.calculate_real_time_metrics db App.one_hour idle_host)
     = 0%nat /\
   ~ agree_beside_clock_and_host
       (App.calculate_real_time_metrics db (App.one_hour - 1) idle_host)
       (App.calculate_real_time_metrics db App.one_hour idle_host)) /\
  (App.system_health (App.calculate_real_time_metrics db App.one_hour idle_host)
     = "healthy" /\
   App.system_health (App.calculate_real_time_metrics db App.one_hour busy_host)
     = "warning" /\
   ~ agree_beside_clock_and_host
       (App.calculate_real_time_metrics db App.one_hour idle_host)
       (App.calculate_real_time_metrics db App.one_hour busy_host)).
Proof.
  cbv zeta. repeat split; try (vm_compute; reflexivity).
  - intros (H & _). vm_compute in H. discriminate.
  - intros (_ & _ & _ & _ & _ & _ & _ & _ & _ & H). vm_compute in H. discriminate.
Qed.

(** Moving the start of a window over a stretch that holds no row leaves
    the selected rows unchanged. *)
Lemma filter_since_stable {A : Type} (ts : A -> Z) (rows : list A) (a b : Z) :
  a <= b ->
  (forall r, In r rows -> ~ (a < ts r <= b)) ->
  List.filter (fun r => a <? ts r) rows = List.filter (fun r => b <? ts r) rows.
Proof.
  intros Hab Hgap. apply filter_ext_in. intros r Hr.
  specialize (Hgap r Hr).
  destruct (Z.ltb_spec a (ts r)), (Z.ltb_spec b (ts r)); try reflexivity; lia.
Qed.

Lemma filter_since_and_stable {A : Type} (ts : A -> Z) (p : A -> bool)
    (rows : list A) (a b : Z) :
  a <= b ->
  (forall r, In r rows -> ~ (a < ts r <= b)) ->
  List.filter (fun r => (a <? ts r) && p r) rows
  = List.filter (fun r => (b <? ts r) && p r) rows.
Proof.
  intros Hab Hgap. apply filter_ext_in. intros r Hr.
  specialize (Hgap r Hr).
  destruct (Z.ltb_spec a (ts r)), (Z.ltb_spec b (ts r)); try reflexivity; lia.
Qed.

(** C9, amended: two runs on the same store, the second not earlier than
    the first, agree on every field computed from the store whenever no
    event or tool-usage row is stamped between the two one-hour window
    starts and no payment between the two one-day window starts (as when
    both runs read the same clock value); [system_health] agrees as well
    when the two CPU samples lie on the same side of 80. *)
Theorem two_runs_agree (db : App.Db) (now1 now2 : Z) (host1 host2 : App.Host) :
  now1 <= now2 ->
  (forall e, In e (App.events db) ->
     ~ (App.hour_ago now1 < App.e_timestamp e <= App.hour_ago now2)) ->
  (forall t, In t (App.tool_usage db) ->
     ~ (App.hour_ago now1 < App.t_timestamp t <= App.hour_ago now2)) ->
  (forall p, In p (App.payments db) ->
     ~ (App.day_ago now1 < App.p_timestamp p <= App.day_ago now2)) ->
  let s1 := App.calculate_real_time_metrics db now1 host1 in
  let s2 := App.calculate_real_time_metrics db now2 host2 in
  agree_on_store_fields s1 s2 /\
  (((App.cpu_usage s1 < 80)%Q <-> (App.cpu_usage s2 < 80)%Q) ->
   App.system_health s1 = App.system_health s2).
Proof.
  intros Hle Hev Htool Hpay. cbv zeta.
  assert (Hh : App.hour_ago now1 <= App.hour_ago now2) by (unfold App.hour_ago; lia).
  assert (Hd : App.day_ago now1 <= App.day_ago now2) by (unfold App.day_ago; lia).
  assert (Ewin : App.events_since (App.hour_ago now1) db
                 = App.events_since (App.hour_ago now2) db).
  { unfold App.events_since. now apply filter_since_stable. }
  assert (Eusers : App.Calc.active_users db now1 = App.Calc.active_users db now2).
  { unfold App.Calc.active_users. now rewrite Ewin. }
  assert (Ecalls : App.Calc.api_calls db now1 = App.Calc.api_calls db now2).
  { unfold App.Calc.api_calls. now rewrite Ewin. }
  assert (Erate : App.Calc.error_rate db now1 = App.Calc.error_rate db now2).
  { unfold App.Calc.error_rate, App.Calc.result. now rewrite Ewin. }
  assert (Etools : App.Calc.tools_used db now1 = App.Calc.tools_used db now2).
  { unfold App.Calc.tools_used. f_equal. now apply filter_since_stable. }
  assert (Erev : App.Calc.revenue_today db now1 = App.Calc.revenue_today db now2).
  { unfold App.Calc.revenue_today. do 2 f_equal.
    now apply (filter_since_and_stable App.p_timestamp App.is_completed). }
  split.
  - unfold agree_on_store_fields, App.calculate_real_time_metrics; cbn.
    unfold App.Calc.api_calls_per_minute.
    rewrite Eusers, Ecalls, Erate, Etools, Erev.
    repeat split; reflexivity.
  - unfold App.calculate_real_time_metrics; cbn. intros Hcpu.
    rewrite Erate. unfold App.Calc.system_health.
    rewrite <- !Qltb_lt in Hcpu.
    destruct (Qltb (App.cpu_percent host1) 80), (Qltb (App.cpu_percent host2) 80);
      try reflexivity.
    + destruct Hcpu as [Hcpu _]. specialize (Hcpu eq_refl). discriminate.
    + destruct Hcpu as [_ Hcpu]. specialize (Hcpu eq_refl). discriminate.
Qed.

Lemma two_runs_agree_witness :
  let db := events_only [plain_event "api_error" (Some "u1") 5;
                         plain_event "page_view" (Some "u2") 9] in
  let s1 := App.calculate_real_time_metrics db 100 idle_host in
  let s2 := App.calculate_real_time_metrics db 101 idle_host in
  agree_on_store_fields s1 s2 /\
  (((App.cpu_usage s1 < 80)%Q <-> (App.cpu_usage s2 < 80)%Q) ->
   App.system_health s1 = App.system_health s2).
Proof.
  apply (two_runs_agree
           (events_only [plain_event "api_error" (Some "u1") 5;
                         plain_event "page_view" (Some "u2") 9])
           100 101 idle_host idle_host).
  - lia.
  - intros e [<- | [<- | []]]; vm_compute; intros [_ H]; apply H; reflexivity.
  - intros t [].
  - intros p [].
Defined.

(** ** The counter cache *)

Section RedisCommands.

Import Redis.

Lemma connected_ok {A : Type} (cmd : Eff server A) (r r' : server) (a : A) :
  connected cmd r = (r', Ok a) -> reachable r = true /\ cmd r = (r', Ok a).
Proof.
  unfold connected. destruct (reachable r); [auto | discriminate].
Qed.

(** [INCR] leaves the expiry of its key as it was: none for a new key. *)
Lemma incr_ttl (key : string) (r r' : server) (n : Z) :
  incr key r = (r', Ok n) ->
  ttl_of r' key = Some (default None (ttl_of r key)).
Proof.
  unfold incr. intros H. apply connected_ok in H as [_ H].
  unfold ttl_of. destruct (db r !! key) as [[v t]|] eqn:E.
  - destruct v; try discriminate.
    destruct (n0 <? int64_max); [|discriminate].
    injection H as <- _. cbn. now rewrite lookup_insert_eq.
  - injection H as <- _. cbn. now rewrite lookup_insert_eq.
Qed.

Lemma incr_other (key key' : string) (r r' : server) (n : Z) :
  key <> key' -> incr key r = (r', Ok n) -> db r' !! key' = db r !! key'.
Proof.
  unfold incr. intros Hne H. apply connected_ok in H as [_ H].
  destruct (db r !! key) as [[v t]|] eqn:E.
  - destruct v; try discriminate.
    destruct (n0 <? int64_max); [|discriminate].
    injection H as <- _. cbn. now rewrite lookup_insert_ne.
  - injection H as <- _. cbn. now rewrite lookup_insert_ne.
Qed.

Lemma expire_other (key key' : string) (s : Z) (r r' : server) (b : bool) :
  key <> key' -> expire key s r = (r', Ok b) -> db r' !! key' = db r !! key'.
Proof.
  unfold expire. intros Hne H. apply connected_ok in H as [_ H].
  destruct (db r !! key) as [e|] eqn:E.
  - injection H as <- _. cbn. now rewrite lookup_insert_ne.
  - now injection H as <- _.
Qed.

(** [EXPIRE] on a key that exists sets its expiry. *)
Lemma expire_ttl (key : string) (s : Z) (r r' : server) (b : bool) :
  is_Some (db r !! key) -> expire key s r = (r', Ok b) ->
  ttl_of r' key = Some (Some s).
Proof.
  unfold expire. intros [e He] H. apply connected_ok in H as [_ H].
  rewrite He in H. injection H as <- _.
  unfold ttl_of. cbn. now rewrite lookup_insert_eq.
Qed.

End RedisCommands.

Lemma counter_keys_differ (t u : string) :
  "counter:event:" +:+ t <> "counter:user:" +:+ u.
Proof. cbn. intros H. discriminate H. Qed.

(** Every successful run of the counter update leaves the event-type
    counter with a 24 hour expiry. *)
Lemma event_counter_expires (event_data : App.Event) (r r' : Redis.server) :
  App.update_counters_on event_data r = (r', Ok tt) ->
  Redis.ttl_of r' ("counter:event:" +:+ App.event_type event_data) = Some (Some 86400).
Proof.
  unfold App.update_counters_on, and_then, ret.
  destruct (Redis.incr _ r) as [r1 [n1|e1]] eqn:E1; [|discriminate].
  match goal with
  | |- context [ (if ?c then ?a else ?b) r1 ] =>
      destruct ((if c then a else b) r1) as [r2 [n2|e2]] eqn:E2; [|discriminate]
  end.
  destruct (Redis.expire _ 86400 r2) as [r3 [b|e3]] eqn:E3; [|discriminate].
  intros H. injection H as <-.
  apply expire_ttl in E3; [exact E3|].
  assert (H1 : is_Some (Redis.db r1 !! ("counter:event:" +:+ App.event_type event_data))).
  { apply incr_ttl in E1. unfold Redis.ttl_of in E1.
    destruct (Redis.db r1 !! _); [eauto | discriminate]. }
  destruct (App.truthy (App.user_id event_data)).
  - erewrite incr_other; [exact H1 | | exact E2].
    intros Heq. symmetry in Heq. exact (counter_keys_differ _ _ Heq).
  - injection E2 as <- _. exact H1.
Qed.

(** The per-user counter is incremented and never given an expiry: after a
    successful update its time to live is the one it had, none for a key
    the update created. *)
Lemma user_counter_ttl_untouched (event_data : App.Event) (u : string)
    (r r' : Redis.server) :
  App.user_id event_data = Some u -> u <> "" ->
  App.update_counters_on event_data r = (r', Ok tt) ->
  Redis.ttl_of r' ("counter:user:" +:+ u)
  = Some (default None (Redis.ttl_of r ("counter:user:" +:+ u))).
Proof.
  intros Hu Hne. unfold App.update_counters_on, and_then, ret.
  assert (Ht : App.truthy (App.user_id event_data) = true).
  { rewrite Hu. cbn. destruct (String.eqb_spec u ""); [contradiction | reflexivity]. }
  rewrite Ht, Hu. cbn [default from_option]. unfold id.
  destruct (Redis.incr _ r) as [r1 [n1|e1]] eqn:E1; [|discriminate].
  destruct (Redis.incr ("counter:user:" +:+ u) r1) as [r2 [n2|e2]] eqn:E2; [|discriminate].
  destruct (Redis.expire _ 86400 r2) as [r3 [b|e3]] eqn:E3; [|discriminate].
  intros H. injection H as <-.
  unfold Redis.ttl_of at 1.
  erewrite expire_other; [| apply counter_keys_differ | exact E3].
  apply incr_ttl in E2. unfold Redis.ttl_of in E2 at 1. rewrite E2.
  unfold Redis.ttl_of.
  erewrite (incr_other _ _ r r1); [reflexivity | apply counter_keys_differ | exact E1].
Qed.

(** C6, evaluated: ingesting a page view of user "u1" on an empty cache
    leaves "counter:event:page_view" at 1 with an expiry of 86400 seconds,
    and "counter:user:u1" at 1 with no expiry at all. *)
Theorem user_counter_written_without_ttl :
  exists r' : Redis.server,
    App.update_real_time_counters page_view_by_u1 (Some empty_redis)
      = (Some r', Ok tt) /\
    Redis.value_of r' "counter:event:page_view" = Some (Redis.RInt 1) /\
    Redis.ttl_of r' "counter:event:page_view" = Some (Some 86400) /\
    Redis.value_of r' "counter:user:u1" = Some (Redis.RInt 1) /\
    Redis.ttl_of r' "counter:user:u1" = Some None.
Proof.
  eexists. split; [vm_compute; reflexivity|].
  repeat split; vm_compute; reflexivity.
Qed.

(** ** Broadcast *)

Section UnscopedBroadcast.

Variable send_ok : App.WebSocket -> bool.
Variable message : App.Message.

(** The first loop visits every registered connection: those that accept
    the send get the message, the others are collected. *)
Lemma send_loop_spec (connections : list App.WebSocket) :
  App.send_loop send_ok message connections
  = (deliveries send_ok message connections, List.filter (fun c => negb (send_ok c)) connections).
Proof.
  unfold deliveries.
  induction connections as [|c rest IH]; [reflexivity|].
  cbn [App.send_loop List.filter]. rewrite IH.
  destruct (send_ok c); reflexivity.
Qed.

Lemma list_remove_head_other (x y : App.WebSocket) (l : list App.WebSocket) :
  x <> y ->
  App.list_remove x (y :: l)
  = match App.list_remove x l with Ok r => Ok (y :: r) | Raise e => Raise e end.
Proof.
  intros Hne. cbn [App.list_remove].
  destruct (Nat.eqb_spec x y); [contradiction | reflexivity].
Qed.

(** Removing connections that all differ from the head keeps the head. *)
Lemma remove_loop_keeps_head (y : App.WebSocket) (disconnected : list App.WebSocket) :
  Forall (fun x => x <> y) disconnected ->
  forall active active',
    App.remove_loop disconnected active = (active', Ok tt) ->
    App.remove_loop disconnected (y :: active) = (y :: active', Ok tt).
Proof.
  induction 1 as [|x rest Hx _ IH]; intros active active' H.
  - cbn in *. unfold ret in *. now injection H as <-.
  - cbn [App.remove_loop] in *. rewrite list_remove_head_other by exact Hx.
    destruct (App.list_remove x active) as [a1|e]; [|discriminate].
    now apply IH.
Qed.

(** The second loop never raises in a pass: it removes exactly the
    collected connections. *)
Lemma remove_loop_spec (connections : list App.WebSocket) :
  App.remove_loop (List.filter (fun c => negb (send_ok c)) connections) connections
  = (List.filter send_ok connections, Ok tt).
Proof.
  induction connections as [|c rest IH]; [reflexivity|].
  cbn [List.filter]. destruct (send_ok c) eqn:E; cbn [negb].
  - apply remove_loop_keeps_head; [|exact IH].
    apply List.Forall_forall. intros x Hx ->.
    apply List.filter_In in Hx as [_ Hx]. rewrite E in Hx. discriminate.
  - cbn [App.remove_loop App.list_remove]. rewrite Nat.eqb_refl. exact IH.
Qed.

(** One pass of [broadcast_to_clients]. *)
Lemma broadcast_to_clients_spec (hub : App.Hub) :
  App.broadcast_to_clients send_ok (App.msg_type message) (App.msg_data message)
    (App.msg_timestamp message) hub
  = ({| App.active_connections := List.filter send_ok (App.active_connections hub);
        App.sent := App.sent hub ++ deliveries send_ok message (App.active_connections hub) |},
     Ok tt).
Proof.
  unfold App.broadcast_to_clients.
  destruct hub as [active log]. cbn [App.active_connections App.sent].
  destruct active as [|c rest].
  - cbn. unfold deliveries. cbn. now rewrite app_nil_r.
  - assert (Em : {| App.msg_type := App.msg_type message;
                    App.msg_data := App.msg_data message;
                    App.msg_timestamp := App.msg_timestamp message |} = message)
      by (destruct message; reflexivity).
    rewrite Em, send_loop_spec, remove_loop_spec. reflexivity.
Qed.

Lemma deliveries_In (connections : list App.WebSocket) (c : App.WebSocket)
    (m : App.Message) :
  In (c, m) (deliveries send_ok message connections)
  <-> m = message /\ In c connections /\ send_ok c = true.
Proof.
  unfold deliveries. rewrite List.in_map_iff. split.
  - intros (x & Hx & Hin). injection Hx as -> ->.
    apply List.filter_In in Hin. tauto.
  - intros (-> & Hin & Hok). exists c. split; [reflexivity|].
    apply List.filter_In. tauto.
Qed.

End UnscopedBroadcast.

Section ScopedBroadcast.

Context {Msg : Type}.
Variable send_ok : Main.WebSocket -> bool.
Variable organization_id : string.
Variable message : Msg.
Variable exclude : option string.

(** One pass of [broadcast_to_organization]: every addressed connection
    whose transport accepts the send gets the message, whatever happens to
    the others. *)
Lemma organization_loop_spec (hub : Main.Hub Msg) (items : list (string * Main.WebSocket)) :
  Main.organization_loop send_ok hub organization_id message exclude items
  = map (fun item => (snd item, message))
        (List.filter
           (fun item => Main.addressed hub organization_id exclude (fst item)
                        && send_ok (snd item))
           items).
Proof.
  induction items as [|[conn_id websocket] rest IH]; [reflexivity|].
  cbn [Main.organization_loop List.filter fst snd]. rewrite IH.
  destruct (Main.addressed hub organization_id exclude conn_id && send_ok websocket);
    reflexivity.
Qed.

(** The pass leaves both registries as they were. *)
Lemma broadcast_to_organization_registry (hub : Main.Hub Msg) :
  Main.active_connections
    (Main.broadcast_to_organization send_ok organization_id message exclude hub)
  = Main.active_connections hub /\
  Main.user_sessions
    (Main.broadcast_to_organization send_ok organization_id message exclude hub)
  = Main.user_sessions hub.
Proof. split; reflexivity. Qed.

End ScopedBroadcast.

(** C4, as stated, fails for [broadcast_to_organization]: with two
    subscribers of "acme" and the send to the first one failing, the pass
    still reaches the second, but the first stays registered and is sent the
    message of the next pass as soon as its transport accepts it. *)
Lemma scoped_broadcast_keeps_failed_connection :
  let first_fails := fun ws : Main.WebSocket => negb (Nat.eqb ws 1) in
  let all_accept := fun _ : Main.WebSocket => true in
  let hub1 := Main.broadcast_to_organization first_fails "acme" "m1" None acme_hub in
  let hub2 := Main.broadcast_to_organization all_accept "acme" "m2" None hub1 in
  Main.sent hub1 = [(2%nat, "m1")] /\
  In ("c1", 1%nat) (Main.active_connections hub1) /\
  In (1%nat, "m2") (Main.sent hub2).
Proof.
  cbv zeta. split; [|split].
  - vm_compute. reflexivity.
  - left. reflexivity.
  - vm_compute. right. left. reflexivity.
Qed.

(** C4, amended: in [broadcast_to_clients] every registered connection is
    tried in the pass; those whose send succeeds receive the message, those
    whose send fails are removed once the pass is over, the removal never
    raises, and a later pass delivers nothing to them.
    [broadcast_to_organization] delivers to every connection of the
    organization (the excluded one apart) whose send succeeds, whatever
    happens to the others, and leaves the registry as it was. *)
Theorem broadcast_isolation :
  (forall (send_ok : App.WebSocket -> bool) (message : App.Message) (hub : App.Hub),
     exists hub',
       App.broadcast_to_clients send_ok (App.msg_type message)
         (App.msg_data message) (App.msg_timestamp message) hub = (hub', Ok tt) /\
       App.sent hub' = App.sent hub ++ deliveries send_ok message (App.active_connections hub) /\
       (forall c, In c (App.active_connections hub) -> send_ok c = true ->
                  In (c, message) (deliveries send_ok message (App.active_connections hub))
                  /\ In c (App.active_connections hub')) /\
       (forall c, send_ok c = false -> ~ In c (App.active_connections hub')) /\
       (forall c, In c (App.active_connections hub') -> In c (App.active_connections hub)) /\
       (forall (send_ok' : App.WebSocket -> bool) (message' : App.Message),
        exists hub'',
          App.broadcast_to_clients send_ok' (App.msg_type message')
            (App.msg_data message') (App.msg_timestamp message') hub' = (hub'', Ok tt) /\
          App.sent hub''
            = App.sent hub' ++ deliveries send_ok' message' (App.active_connections hub') /\
          (forall c m, send_ok c = false ->
             ~ In (c, m) (deliveries send_ok' message' (App.active_connections hub'))))) /\
  (forall (send_ok : Main.WebSocket -> bool) (organization_id message : string)
          (exclude : option string) (hub : Main.Hub string),
     let hub' := Main.broadcast_to_organization send_ok organization_id message exclude hub in
     Main.active_connections hub' = Main.active_connections hub /\
     Main.user_sessions hub' = Main.user_sessions hub /\
     Main.sent hub'
       = Main.sent hub ++
         map (fun item => (snd item, message))
             (List.filter
                (fun item => Main.addressed hub organization_id exclude (fst item)
                             && send_ok (snd item))
                (Main.active_connections hub))).
Proof.
  split.
  - intros send_ok message hub. eexists. split; [apply broadcast_to_clients_spec|].
    cbn [App.active_connections App.sent].
    split; [reflexivity|]. split; [|split; [|split]].
    + intros c Hin Hok. split.
      * apply deliveries_In. auto.
      * apply List.filter_In. auto.
    + intros c Hfail Hin. apply List.filter_In in Hin as [_ Hin]. congruence.
    + intros c Hin. now apply List.filter_In in Hin as [Hin _].
    + intros send_ok' message'. eexists.
      split; [apply broadcast_to_clients_spec|].
      cbn [App.active_connections App.sent]. split; [reflexivity|].
      intros c m Hfail Hin. apply deliveries_In in Hin as (_ & Hin & _).
      apply List.filter_In in Hin as [_ Hin]. congruence.
  - intros send_ok organization_id message exclude hub. cbv zeta.
    split; [reflexivity|]. split; [reflexivity|].
    unfold Main.broadcast_to_organization. cbn [Main.sent].
    now rewrite organization_loop_spec.
Qed.

(** ** The ingestion path of [main.py] *)

Section Ingest.

Variable env : Main.Env.
Variable event : Main.AnalyticsEvent.
Variable w : Main.World.

(** Whatever happens later, the event has been appended. *)
Lemma process_event_appends :
  Main.data_buffer (Main.processor (fst (Main.process_event env event w)))
  = buffer_after w event.
Proof.
  unfold Main.process_event, buffer_after.
  destruct (Main._update_real_time_metrics event _); [|reflexivity].
  destruct (Main._store_in_redis env event _) as [r [[]|e]]; reflexivity.
Qed.

Lemma recent_calls_window (self : Main.AnalyticsProcessor) :
  Main.recent_calls self event
  = api_calls_in_window (Main.data_buffer self) (Main.user_id event).
Proof. reflexivity. Qed.

Lemma recent_errors_window (self : Main.AnalyticsProcessor) :
  Main.recent_errors self = errors_in_window (Main.data_buffer self).
Proof. reflexivity. Qed.

(** The three ways [process_event] can end. *)
Lemma process_event_cases :
  (exists e,
      Main._update_real_time_metrics event
        (Main.real_time_metrics (Main.processor w)) = Raise e /\
      snd (Main.process_event env event w) = Main.NotProcessed e) \/
  (exists m e,
      Main._update_real_time_metrics event
        (Main.real_time_metrics (Main.processor w)) = Ok m /\
      snd (Main._store_in_redis env event (Main.redis_client w)) = Raise e /\
      snd (Main.process_event env event w) = Main.NotProcessed e) \/
  (exists m,
      Main._update_real_time_metrics event
        (Main.real_time_metrics (Main.processor w)) = Ok m /\
      store_succeeds env event w /\
      let self := {| Main.data_buffer := buffer_after w event;
                     Main.real_time_metrics := m |} in
      snd (Main.process_event env event w)
      = Main.Processed (Main._generate_insights env self event)
          (Main._detect_anomalies self event) (Main.clock env)).
Proof.
  unfold Main.process_event, store_succeeds, buffer_after.
  destruct (Main._update_real_time_metrics event _) as [m|e].
  - destruct (Main._store_in_redis env event _) as [r [[]|e]]; cbn [snd].
    + right. right. exists m. auto.
    + right. left. exists m, e. auto.
  - left. exists e. auto.
Qed.

(** The anomaly list depends on the buffer and the event only. *)
Lemma detect_anomalies_spec (self : Main.AnalyticsProcessor) :
  Main._detect_anomalies self event
  = (if String.eqb (Main.event_type event) "api_call"
     then if (20 <? api_calls_in_window (Main.data_buffer self) (Main.user_id event))%nat
          then [Main.high_api_usage (Main.user_id event)
                  (api_calls_in_window (Main.data_buffer self) (Main.user_id event))]
          else []
     else [])
    ++ (if String.eqb (Main.event_type event) "error"
        then if (5 <? errors_in_window (Main.data_buffer self))%nat
             then [Main.error_spike (errors_in_window (Main.data_buffer self))]
             else []
        else []).
Proof.
  unfold Main._detect_anomalies.
  rewrite recent_calls_window, recent_errors_window.
  destruct (String.eqb (Main.event_type event) "api_call");
    destruct (String.eqb (Main.event_type event) "error");
    destruct (20 <? api_calls_in_window (Main.data_buffer self) (Main.user_id event))%nat;
    destruct (5 <? errors_in_window (Main.data_buffer self))%nat; reflexivity.
Qed.

(** Every returned anomaly list is the one of [_detect_anomalies] on the
    appended buffer, or empty when the call ended in the handler. *)
Lemma anomalies_of_process_event :
  Main.anomalies_of (snd (Main.process_event env event w)) = []
  \/ exists m,
       Main.anomalies_of (snd (Main.process_event env event w))
       = Main._detect_anomalies
           {| Main.data_buffer := buffer_after w event; Main.real_time_metrics := m |}
           event.
Proof.
  destruct process_event_cases as [(e & _ & ->) | [(m & e & _ & _ & ->) | (m & _ & _ & ->)]].
  - left. reflexivity.
  - left. reflexivity.
  - right. exists m. reflexivity.
Qed.

End Ingest.



(** ** Anomaly thresholds *)

Ltac settle_ingest env event w :=
  destruct (process_event_cases env event w)
    as [(e & Hm & Hr) | [(m & e & Hm & Hs & Hr) | (m & Hm & Hs & Hr)]].

Lemma In_api_part (event : Main.AnalyticsEvent) (n : nat) (a : Main.Anomaly) :
  In a (if String.eqb (Main.event_type event) "api_call"
        then if (20 <? n)%nat then [Main.high_api_usage (Main.user_id event) n] else []
        else []) ->
  Main.event_type event = "api_call" /\ (20 < n)%nat /\
  a = Main.high_api_usage (Main.user_id event) n.
Proof.
  destruct (String.eqb_spec (Main.event_type event) "api_call") as [E|E]; [|intros []].
  destruct (Nat.ltb_spec 20 n); [|intros []].
  intros [<- | []]. auto.
Qed.

Lemma In_error_part (event : Main.AnalyticsEvent) (n : nat) (a : Main.Anomaly) :
  In a (if String.eqb (Main.event_type event) "error"
        then if (5 <? n)%nat then [Main.error_spike n] else []
        else []) ->
  Main.event_type event = "error" /\ (5 < n)%nat /\ a = Main.error_spike n.
Proof.
  destruct (String.eqb_spec (Main.event_type event) "error") as [E|E]; [|intros []].
  destruct (Nat.ltb_spec 5 n); [|intros []].
  intros [<- | []]. auto.
Qed.

(** What an entry of a returned anomaly list can be. *)
Lemma anomaly_origin (env : Main.Env) (event : Main.AnalyticsEvent) (w : Main.World)
    (a : Main.Anomaly) :
  In a (Main.anomalies_of (snd (Main.process_event env event w))) ->
  (Main.event_type event = "api_call" /\
   (20 < api_calls_in_window (buffer_after w event) (Main.user_id event))%nat /\
   a = Main.high_api_usage (Main.user_id event)
         (api_calls_in_window (buffer_after w event) (Main.user_id event)))
  \/ (Main.event_type event = "error" /\
      (5 < errors_in_window (buffer_after w event))%nat /\
      a = Main.error_spike (errors_in_window (buffer_after w event))).
Proof.
  destruct (anomalies_of_process_event env event w) as [-> | (m & ->)]; [intros []|].
  rewrite detect_anomalies_spec. cbn [Main.data_buffer].
  rewrite List.in_app_iff. intros [H | H].
  - left. now apply In_api_part.
  - right. now apply In_error_part.
Qed.





(** C10: the heuristics are gated on the type of the ingested event. An
    entry "high_api_usage" is only returned for an event of type "api_call",
    an entry "error_spike" only for one of type "error", and for an event of
    any other type the anomaly list is empty whatever the buffer holds. *)
Theorem anomalies_gated_on_event_type (env : Main.Env) (event : Main.AnalyticsEvent)
    (w : Main.World) :
  let r := snd (Main.process_event env event w) in
  (forall a, In a (Main.anomalies_of r) -> Main.a_type a = "high_api_usage" ->
             Main.event_type event = "api_call") /\
  (forall a, In a (Main.anomalies_of r) -> Main.a_type a = "error_spike" ->
             Main.event_type event = "error") /\
  (Main.event_type event <> "api_call" -> Main.event_type event <> "error" ->
     Main.anomalies_of r = [] /\
     (forall insights anomalies timestamp,
        r = Main.Processed insights anomalies timestamp -> anomalies = []) /\
     (forall self, Main._detect_anomalies self event = [])).
Proof.
  cbv zeta. split; [|split].
  - intros a Hin Ha. apply anomaly_origin in Hin as [(H & _) | (_ & _ & ->)];
      [exact H | discriminate Ha].
  - intros a Hin Ha. apply anomaly_origin in Hin as [(_ & _ & ->) | (H & _)];
      [discriminate Ha | exact H].
  - intros Hapi Herr.
    assert (Hnone : forall self, Main._detect_anomalies self event = []).
    { intros self. rewrite detect_anomalies_spec.
      destruct (String.eqb_spec (Main.event_type event) "api_call"); [contradiction|].
      destruct (String.eqb_spec (Main.event_type event) "error"); [contradiction|].
      reflexivity. }
    split; [|split].
    + destruct (anomalies_of_process_event env event w) as [-> | (m & ->)];
        [reflexivity | apply Hnone].
    + intros insights anomalies timestamp Hres. settle_ingest env event w.
      * congruence.
      * congruence.
      * cbv zeta in Hr. rewrite Hr in Hres. injection Hres as _ <- _. apply Hnone.
    + exact Hnone.
Qed.

Lemma anomalies_gated_on_event_type_witness :
  let event := simple_event "page_view" "A" in
  let w := world_of (repeat (simple_event "api_call" "A") 30
                     ++ repeat (simple_event "error" "A") 10) in
  Main.anomalies_of (snd (Main.process_event quiet_env event w)) = [].
Proof.
  cbv zeta.
  apply (proj2 (proj2 (anomalies_gated_on_event_type quiet_env
                         (simple_event "page_view" "A")
                         (world_of (repeat (simple_event "api_call" "A") 30
                                    ++ repeat (simple_event "error" "A") 10))))).
  - vm_compute. discriminate.
  - vm_compute. discriminate.
Defined.

(** ** The event buffer and its cap *)

Lemma last_n_suffix {A : Type} (n : nat) (l : list A) :
  exists dropped, l = dropped ++ last_n n l /\ length dropped = (length l - n)%nat.
Proof.
  exists (firstn (length l - n) l). split.
  - unfold last_n. symmetry. apply firstn_skipn.
  - rewrite List.length_firstn. lia.
Qed.

Lemma last_n_length {A : Type} (n : nat) (l : list A) :
  length (last_n n l) = Nat.min n (length l).
Proof. unfold last_n. rewrite List.length_skipn. lia. Qed.

(** A round of the background task cuts the buffer to its newest 1000
    entries and drops older ones only. *)
Lemma background_trims (self : Main.AnalyticsProcessor) :
  let self' := Main.background_analytics_processing self in
  length (Main.data_buffer self') = Nat.min 1000 (length (Main.data_buffer self)) /\
  exists dropped,
    Main.data_buffer self = dropped ++ Main.data_buffer self' /\
    length dropped = (length (Main.data_buffer self) - 1000)%nat.
Proof.
  cbv zeta. unfold Main.background_analytics_processing.
  destruct (Nat.ltb_spec 0 (length (Main.data_buffer self))) as [Hpos|Hzero].
  - destruct (Nat.ltb_spec 1000 (length (Main.data_buffer self))) as [Hbig|Hsmall].
    + cbn [Main.data_buffer]. split; [apply last_n_length | apply last_n_suffix].
    + split; [lia|]. exists []. split; [reflexivity | cbn; lia].
  - split; [lia|]. exists []. split; [reflexivity | cbn; lia].
Qed.

(** The buffer is at all times a suffix of what has arrived. *)
Lemma run_keeps_newest (steps : list Step) (w : Main.World) :
  exists dropped,
    Main.data_buffer (Main.processor w) ++ ingested steps
    = dropped ++ Main.data_buffer (Main.processor (run steps w)).
Proof.
  revert w. induction steps as [|s steps IH]; intros w.
  - exists []. cbn. now rewrite app_nil_r.
  - cbn [run fold_left]. fold (run steps (step w s)).
    destruct (IH (step w s)) as [d Hd]. destruct s as [env event|].
    + cbn [step] in *. rewrite process_event_appends in Hd. unfold buffer_after in Hd.
      exists d. cbn [ingested flat_map]. fold (ingested steps).
      rewrite <- Hd, <- app_assoc. reflexivity.
    + cbn [step Main.processor] in *.
      destruct (background_trims (Main.processor w)) as [_ (d0 & Hd0 & _)].
      exists (d0 ++ d). cbn [ingested flat_map]. fold (ingested steps).
      cbn [app]. rewrite Hd0 at 1. rewrite <- !app_assoc. now rewrite Hd.
Qed.

(** C3, as stated, fails: [process_event] appends and never cuts. On a
    buffer of 1000 entries one more ingest leaves 1001. *)
Lemma ingest_exceeds_cap :
  let w := world_of (repeat (simple_event "page_view" "A") 1000) in
  let w' := fst (Main.process_event quiet_env (simple_event "page_view" "B") w) in
  length (Main.data_buffer (Main.processor w')) = 1001%nat /\
  ~ (length (Main.data_buffer (Main.processor w')) <= 1000)%nat.
Proof.
  cbv zeta. rewrite process_event_appends. unfold buffer_after.
  rewrite List.length_app. cbn [Main.data_buffer Main.processor world_of].
  rewrite List.repeat_length. cbn. split; [reflexivity | lia].
Qed.

(** C3, amended: an ingest appends its event and drops nothing, so the
    buffer grows by one whatever its size; the cap of 1000 is enforced by
    the rounds of the background task: after a round the buffer holds the
    newest [min 1000 n] of its [n] entries. Over any sequence of ingests and
    rounds the buffer is a suffix of the events that arrived, so only the
    oldest entries are ever dropped, and after a round it holds at most 1000
    entries. *)
Theorem buffer_cap_enforced_by_background_round :
  (forall env event w,
     Main.data_buffer (Main.processor (fst (Main.process_event env event w)))
     = Main.data_buffer (Main.processor w) ++ [event]) /\
  (forall self,
     let self' := Main.background_analytics_processing self in
     (length (Main.data_buffer self') <= 1000)%nat /\
     length (Main.data_buffer self') = Nat.min 1000 (length (Main.data_buffer self)) /\
     exists dropped,
       Main.data_buffer self = dropped ++ Main.data_buffer self') /\
  (forall steps w,
     (exists dropped,
        Main.data_buffer (Main.processor w) ++ ingested steps
        = dropped ++ Main.data_buffer (Main.processor (run steps w))) /\
     (length (Main.data_buffer (Main.processor (run (steps ++ [Background]) w)))
      <= 1000)%nat).
Proof.
  split; [|split].
  - intros env event w. apply process_event_appends.
  - intros self. cbv zeta.
    destruct (background_trims self) as [Hlen (d & Hd & _)].
    split; [|split].
    + cbv zeta in Hlen. rewrite Hlen. lia.
    + exact Hlen.
    + exists d. exact Hd.
  - intros steps w. split; [apply run_keeps_newest|].
    unfold run. rewrite fold_left_app. cbn [fold_left step Main.processor].
    destruct (background_trims (Main.processor (fold_left step steps w))) as [Hlen _].
    cbv zeta in Hlen. rewrite Hlen. lia.
Qed.

(** ** What an exception in a step does to the request *)

(** C5, as stated, fails: the steps before insight derivation share one
    handler with the whole request. With Redis out of reach the 21st API
    call of user "A" is answered by the error dictionary: neither insights
    nor the "high_api_usage" entry that [_detect_anomalies] yields on that
    buffer are returned. A payment whose amount is not a number ends the
    same way in the running-counter step. *)
Lemma failing_step_aborts_ingest :
  let event := simple_event "api_call" "A" in
  let w := world_redis_down (repeat event 20) in
  (snd (Main.process_event quiet_env event w)
     = Main.NotProcessed (ConnectionError "Error connecting to Redis") /\
   Main._detect_anomalies (Main.processor (fst (Main.process_event quiet_env event w))) event
     = [Main.high_api_usage "A" 21]) /\
  snd (Main.process_event quiet_env payment_with_bad_amount (world_of []))
    = Main.NotProcessed (ValueError "could not convert to float: abc").
Proof. cbv zeta. repeat split; vm_compute; reflexivity. Qed.

(** C5, amended: the event is appended in every case; an exception in the
    running-counter step or in the cache step is caught by the handler of
    the whole request, which then returns the error dictionary without
    insights and anomalies; when both steps go through, the result carries
    the insights and the anomaly list, and an exception inside insight
    derivation only turns the insights into an error entry while the anomaly
    list is still computed and returned. *)
Theorem ingest_failure_handling (env : Main.Env) (event : Main.AnalyticsEvent)
    (w : Main.World) :
  let r := snd (Main.process_event env event w) in
  let metrics := Main._update_real_time_metrics event
                   (Main.real_time_metrics (Main.processor w)) in
  let stored := snd (Main._store_in_redis env event (Main.redis_client w)) in
  Main.data_buffer (Main.processor (fst (Main.process_event env event w)))
    = buffer_after w event /\
  (forall e, metrics = Raise e -> r = Main.NotProcessed e) /\
  (forall m e, metrics = Ok m -> stored = Raise e -> r = Main.NotProcessed e) /\
  (forall m, metrics = Ok m -> stored = Ok tt ->
     let self := {| Main.data_buffer := buffer_after w event;
                    Main.real_time_metrics := m |} in
     r = Main.Processed (Main._generate_insights env self event)
           (Main._detect_anomalies self event) (Main.clock env) /\
     (forall e, (10 < length (buffer_after w event))%nat ->
                Main.pandas env (last_n 100 (buffer_after w event)) = Raise e ->
                r = Main.Processed (Main.InsightsError e)
                      (Main._detect_anomalies self event) (Main.clock env))).
Proof.
  cbv zeta. split; [apply process_event_appends|].
  unfold Main.process_event, buffer_after.
  destruct (Main._update_real_time_metrics event _) as [m|e].
  - destruct (Main._store_in_redis env event _) as [r [[]|e]]; cbn [snd].
    + split; [discriminate|]. split; [discriminate|].
      intros m' Hm _. injection Hm as <-. split; [reflexivity|].
      intros e Hlen Hp. unfold Main._generate_insights. cbn [Main.data_buffer].
      destruct (Nat.ltb_spec 10 (length (Main.data_buffer (Main.processor w) ++ [event])));
        [|lia].
      now rewrite Hp.
    + split; [discriminate|]. split.
      * intros m' e' _ He. now injection He as <-.
      * discriminate.
  - cbn [snd]. split; [|split].
    + intros e' He. now injection He as <-.
    + discriminate.
    + discriminate.
Qed.

Lemma ingest_failure_handling_witness :
  let event := simple_event "api_call" "A" in
  let w := world_of (repeat event 20) in
  snd (Main.process_event broken_frame_env event w)
  = Main.Processed (Main.InsightsError (ValueError "bad frame"))
      (Main._detect_anomalies
         {| Main.data_buffer := buffer_after w event;
            Main.real_time_metrics :=
              {| Main.total_users := 0; Main.active_tools := ∅; Main.api_calls := 1;
                 Main.errors := 0; Main.revenue := 0%Q; Main.system_load := 0%Q |} |}
         event)
      0.
Proof.
  cbv zeta.
  apply (proj2 (proj2 (proj2 (proj2
           (ingest_failure_handling broken_frame_env (simple_event "api_call" "A")
              (world_of (repeat (simple_event "api_call" "A") 20))))) _ eq_refl eq_refl)).
  - vm_compute. lia.
  - reflexivity.
Defined.

(** * Further properties of the code *)

(** ** The running counters of [main.py] *)

(** What [_update_real_time_metrics] does to the three event counters, and
    when it raises. *)
Lemma update_metrics_counts (event : Main.AnalyticsEvent) (m : Main.Metrics) :
  match Main._update_real_time_metrics event m with
  | Ok m' =>
      Main.api_calls m'
        = Main.api_calls m + (if String.eqb (Main.event_type event) "api_call" then 1 else 0) /\
      Main.errors m'
        = Main.errors m + (if String.eqb (Main.event_type event) "error" then 1 else 0) /\
      Main.total_users m'
        = Main.total_users m + (if String.eqb (Main.event_type event) "user_login" then 1 else 0)
  | Raise _ =>
      Main.event_type event = "payment" /\
      exists repr, Main.data event !! "amount" = Some (Main.PyNonNumeric repr)
  end.
Proof.
  unfold Main._update_real_time_metrics.
  destruct (String.eqb_spec (Main.event_type event) "user_login") as [E|_];
    [try rewrite E; cbn; lia|].
  destruct (String.eqb_spec (Main.event_type event) "tool_usage") as [E|_];
    [try rewrite E; cbn; lia|].
  destruct (String.eqb_spec (Main.event_type event) "api_call") as [E|_];
    [try rewrite E; cbn; lia|].
  destruct (String.eqb_spec (Main.event_type event) "error") as [E|_];
    [try rewrite E; cbn; lia|].
  destruct (String.eqb_spec (Main.event_type event) "payment") as [E|_];
    [|cbn; lia].
  destruct (Main.data event !! "amount") as [[q|repr]|] eqn:Ea; cbn; try lia.
  split; [exact E | eauto].
Qed.

(** The counters a call of [process_event] leaves behind. *)
Lemma process_event_metrics (env : Main.Env) (event : Main.AnalyticsEvent)
    (w : Main.World) :
  Main.real_time_metrics (Main.processor (fst (Main.process_event env event w)))
  = match Main._update_real_time_metrics event
            (Main.real_time_metrics (Main.processor w)) with
    | Ok m => m
    | Raise _ => Main.real_time_metrics (Main.processor w)
    end.
Proof.
  unfold Main.process_event.
  destruct (Main._update_real_time_metrics event _); [|reflexivity].
  destruct (Main._store_in_redis env event _) as [r [[]|e]]; reflexivity.
Qed.

Lemma count_type_cons (type : string) (event : Main.AnalyticsEvent)
    (events : list Main.AnalyticsEvent) :
  count_type type (event :: events)
  = (if String.eqb (Main.event_type event) type then 1 else 0) + count_type type events.
Proof.
  unfold count_type, count_if. cbn [List.filter].
  destruct (String.eqb (Main.event_type event) type); cbn [length]; lia.
Qed.

(** X1: over any sequence of ingests and background rounds, whatever Redis
    and pandas do, the counters [api_calls], [errors] and [total_users] grow
    by exactly the number of ingested events of type "api_call", "error"
    and "user_login". *)
Theorem running_counters_count_events (steps : list Step) (w : Main.World) :
  let before := Main.real_time_metrics (Main.processor w) in
  let after := Main.real_time_metrics (Main.processor (run steps w)) in
  Main.api_calls after = Main.api_calls before + count_type "api_call" (ingested steps) /\
  Main.errors after = Main.errors before + count_type "error" (ingested steps) /\
  Main.total_users after
    = Main.total_users before + count_type "user_login" (ingested steps).
Proof.
  cbv zeta. revert w. induction steps as [|s steps IH]; intros w.
  - cbn. unfold count_type. cbn. lia.
  - cbn [run fold_left]. fold (run steps (step w s)).
    destruct (IH (step w s)) as (Ha & He & Hu). rewrite Ha, He, Hu. clear IH Ha He Hu.
    destruct s as [env event|].
    + cbn [step ingested flat_map app]. fold (ingested steps).
      rewrite !count_type_cons, process_event_metrics.
      pose proof (update_metrics_counts event (Main.real_time_metrics (Main.processor w))) as H.
      destruct (Main._update_real_time_metrics event _) as [m|e].
      * destruct H as (-> & -> & ->). lia.
      * destruct H as [E _]. rewrite E. cbn. lia.
    + cbn [step ingested flat_map Main.processor]. fold (ingested steps).
      unfold Main.background_analytics_processing.
      destruct (0 <? _)%nat; [destruct (1000 <? _)%nat|]; cbn; lia.
Qed.

(** X2: the running-counter step raises exactly for a payment whose amount
    [float] rejects; the call then returns the error dictionary, the event
    stays in the buffer, and the counters and Redis are left as they
    were. *)
Theorem rejected_payment_changes_only_buffer (env : Main.Env)
    (event : Main.AnalyticsEvent) (w : Main.World) :
  ((exists e, Main._update_real_time_metrics event
                (Main.real_time_metrics (Main.processor w)) = Raise e)
   <-> Main.event_type event = "payment" /\
       exists repr, Main.data event !! "amount" = Some (Main.PyNonNumeric repr)) /\
  (forall e,
     Main._update_real_time_metrics event
       (Main.real_time_metrics (Main.processor w)) = Raise e ->
     Main.process_event env event w
     = ({| Main.processor :=
             {| Main.data_buffer := Main.data_buffer (Main.processor w) ++ [event];
                Main.real_time_metrics := Main.real_time_metrics (Main.processor w) |};
           Main.redis_client := Main.redis_client w |},
        Main.NotProcessed e)).
Proof.
  split.
  - split.
    + intros [e He].
      pose proof (update_metrics_counts event (Main.real_time_metrics (Main.processor w))) as H.
      rewrite He in H. exact H.
    + intros [E [repr Hr]]. unfold Main._update_real_time_metrics.
      rewrite E, Hr. cbn. eauto.
  - intros e He. unfold Main.process_event. now rewrite He.
Qed.

Lemma rejected_payment_changes_only_buffer_witness :
  Main.process_event quiet_env payment_with_bad_amount (world_of [])
  = ({| Main.processor :=
          {| Main.data_buffer := [payment_with_bad_amount];
             Main.real_time_metrics := Main.real_time_metrics Main.init |};
        Main.redis_client := None |},
     Main.NotProcessed (ValueError "could not convert to float: abc")).
Proof.
  apply (proj2 (rejected_payment_changes_only_buffer quiet_env payment_with_bad_amount
                  (world_of []))).
  reflexivity.
Defined.

(** ** Windows over the buffer *)

Lemma last_n_length_le {A : Type} (n : nat) (l : list A) :
  (length (last_n n l) <= n)%nat.
Proof. rewrite last_n_length. lia. Qed.

(** Entries in front of the last [k] do not matter. *)
Lemma last_n_app_drop {A : Type} (k : nat) (d t : list A) :
  (k <= length t)%nat -> last_n k (d ++ t) = last_n k t.
Proof.
  intros Hk. unfold last_n. rewrite List.length_app, List.skipn_app.
  replace (length d + length t - k - length d)%nat with (length t - k)%nat by lia.
  rewrite List.skipn_all2 by lia. reflexivity.
Qed.

Lemma last_n_all {A : Type} (n : nat) (l : list A) :
  (length l <= n)%nat -> last_n n l = l.
Proof.
  intros H. unfold last_n. replace (length l - n)%nat with 0%nat by lia. reflexivity.
Qed.

Lemma last_n_last_n {A : Type} (k m : nat) (l : list A) :
  (k <= m)%nat -> last_n k (last_n m l) = last_n k l.
Proof.
  intros Hkm. destruct (Nat.le_gt_cases (length l) m) as [Hs|Hb].
  - now rewrite (last_n_all m l Hs).
  - destruct (last_n_suffix m l) as (d & Hd & _).
    transitivity (last_n k (d ++ last_n m l)); [|now rewrite <- Hd].
    symmetry. apply last_n_app_drop. rewrite last_n_length. lia.
Qed.

(** The buffer a round of the background task leaves has the same trailing
    windows, once the next event is appended, as the buffer it found. *)
Lemma trimmed_window (k : nat) (self : Main.AnalyticsProcessor)
    (event : Main.AnalyticsEvent) :
  (k <= 1000)%nat ->
  last_n k (Main.data_buffer (Main.background_analytics_processing self) ++ [event])
  = last_n k (Main.data_buffer self ++ [event]).
Proof.
  intros Hk. destruct (background_trims self) as [Hlen (d & Hd & Hdl)].
  cbv zeta in Hlen.
  transitivity (last_n k (d ++ Main.data_buffer (Main.background_analytics_processing self)
                          ++ [event])).
  - destruct (Nat.le_gt_cases (length (Main.data_buffer self)) 1000) as [Hs|Hb].
    + assert (d = []) as -> by (apply List.length_zero_iff_nil; lia). reflexivity.
    + symmetry. apply last_n_app_drop. rewrite List.length_app, Hlen. cbn [length]. lia.
  - now rewrite app_assoc, <- Hd.
Qed.

Lemma trimmed_guard (self : Main.AnalyticsProcessor) (event : Main.AnalyticsEvent) :
  (10 <? length (Main.data_buffer (Main.background_analytics_processing self) ++ [event]))%nat
  = (10 <? length (Main.data_buffer self ++ [event]))%nat.
Proof.
  destruct (background_trims self) as [Hlen _]. cbv zeta in Hlen.
  rewrite !List.length_app, Hlen. cbn [length].
  destruct (Nat.ltb_spec 10 (Nat.min 1000 (length (Main.data_buffer self)) + 1));
    destruct (Nat.ltb_spec 10 (length (Main.data_buffer self) + 1)); try reflexivity; lia.
Qed.

(** X3: the anomaly list of a call depends on the trailing 50 entries of
    the buffer only, and the insights, once more than 10 entries are
    buffered, on the trailing 100 only. *)
Theorem anomalies_and_insights_are_local (env : Main.Env)
    (self self' : Main.AnalyticsProcessor) (event : Main.AnalyticsEvent) :
  (last_n 50 (Main.data_buffer self) = last_n 50 (Main.data_buffer self') ->
   Main._detect_anomalies self event = Main._detect_anomalies self' event) /\
  ((10 < length (Main.data_buffer self))%nat ->
   (10 < length (Main.data_buffer self'))%nat ->
   last_n 100 (Main.data_buffer self) = last_n 100 (Main.data_buffer self') ->
   Main._generate_insights env self event = Main._generate_insights env self' event).
Proof.
  split.
  - intros H. rewrite !detect_anomalies_spec.
    unfold api_calls_in_window, errors_in_window.
    rewrite <- (last_n_last_n 20 50 (Main.data_buffer self)) by lia.
    rewrite <- (last_n_last_n 20 50 (Main.data_buffer self')) by lia.
    now rewrite H.
  - intros H1 H2 H. unfold Main._generate_insights.
    apply Nat.ltb_lt in H1, H2. now rewrite H1, H2, H.
Qed.

Lemma anomalies_and_insights_are_local_witness :
  let recent := repeat (simple_event "api_call" "A") 50 in
  let self := Main.processor (world_of recent) in
  let self' := Main.processor (world_of (repeat (simple_event "error" "B") 7 ++ recent)) in
  Main._detect_anomalies self (simple_event "api_call" "A")
  = Main._detect_anomalies self' (simple_event "api_call" "A").
Proof.
  cbv zeta.
  apply (proj1 (anomalies_and_insights_are_local quiet_env
                  (Main.processor (world_of (repeat (simple_event "api_call" "A") 50)))
                  (Main.processor (world_of (repeat (simple_event "error" "B") 7
                                             ++ repeat (simple_event "api_call" "A") 50)))
                  (simple_event "api_call" "A"))).
  vm_compute. reflexivity.
Defined.

(** X4: a round of the background task is invisible to the callers of
    [process_event]: the dictionary returned for the next event is the same
    with and without the round. *)
Theorem background_round_is_transparent (env : Main.Env) (event : Main.AnalyticsEvent)
    (w : Main.World) :
  snd (Main.process_event env event (step w Background))
  = snd (Main.process_event env event w).
Proof.
  unfold Main.process_event. cbn [step Main.processor Main.redis_client].
  assert (Hm : Main.real_time_metrics
                 (Main.background_analytics_processing (Main.processor w))
               = Main.real_time_metrics (Main.processor w)).
  { unfold Main.background_analytics_processing.
    destruct (0 <? _)%nat; [destruct (1000 <? _)%nat|]; reflexivity. }
  rewrite Hm.
  destruct (Main._update_real_time_metrics event _) as [m|e]; [|reflexivity].
  destruct (Main._store_in_redis env event _) as [r [[]|e]]; [|reflexivity].
  cbn [snd]. f_equal.
  - unfold Main._generate_insights. cbn [Main.data_buffer].
    now rewrite trimmed_guard, trimmed_window by lia.
  - rewrite !detect_anomalies_spec. cbn [Main.data_buffer].
    unfold api_calls_in_window, errors_in_window.
    now rewrite !trimmed_window by lia.
Qed.

(** X5: a call returns at most one anomaly; a "high_api_usage" entry names
    the user of the event, has severity "high" and a count between 21 and
    50; an "error_spike" entry has severity "medium" and a count between 6
    and 20. *)
Theorem anomaly_entries_are_bounded (env : Main.Env) (event : Main.AnalyticsEvent)
    (w : Main.World) :
  let anomalies := Main.anomalies_of (snd (Main.process_event env event w)) in
  (length anomalies <= 1)%nat /\
  forall a, In a anomalies ->
    (a = Main.high_api_usage (Main.user_id event) (Main.a_count a) /\
     (21 <= Main.a_count a <= 50)%nat) \/
    (a = Main.error_spike (Main.a_count a) /\ (6 <= Main.a_count a <= 20)%nat).
Proof.
  cbv zeta. split.
  - destruct (anomalies_of_process_event env event w) as [-> | (m & ->)]; [cbn; lia|].
    rewrite detect_anomalies_spec.
    destruct (String.eqb_spec (Main.event_type event) "api_call") as [E|_].
    + rewrite E. cbn [String.eqb Ascii.eqb Bool.eqb]. rewrite app_nil_r.
      destruct (20 <? _)%nat; cbn; lia.
    + cbn [app]. destruct (String.eqb _ "error"); [destruct (5 <? _)%nat|]; cbn; lia.
  - intros a Hin. apply anomaly_origin in Hin as [(_ & Hlt & ->) | (_ & Hlt & ->)].
    + left. cbn [Main.a_count Main.high_api_usage]. split; [reflexivity|]. split; [lia|].
      unfold api_calls_in_window.
      pose proof (count_if_le
        (fun e => String.eqb (Main.event_type e) "api_call"
                  && String.eqb (Main.user_id e) (Main.user_id event))
        (last_n 50 (buffer_after w event))).
      pose proof (last_n_length_le 50 (buffer_after w event)). lia.
    + right. cbn [Main.a_count Main.error_spike]. split; [reflexivity|]. split; [lia|].
      unfold errors_in_window.
      pose proof (count_if_le (fun e => String.eqb (Main.event_type e) "error")
                    (last_n 20 (buffer_after w event))).
      pose proof (last_n_length_le 20 (buffer_after w event)). lia.
Qed.

(** X6: [_generate_insights] answers "Insufficient data for insights" while
    the buffer holds 10 entries or less, and a report never carries more
    than 10 entries of user behaviour nor more than 5 tools. *)
Theorem insights_are_bounded (env : Main.Env) (self : Main.AnalyticsProcessor)
    (event : Main.AnalyticsEvent) :
  ((length (Main.data_buffer self) <= 10)%nat ->
   Main._generate_insights env self event
   = Main.InsightsMessage "Insufficient data for insights") /\
  (forall tables,
     Main._generate_insights env self event = Main.InsightsReport tables ->
     (10 < length (Main.data_buffer self))%nat /\
     (length (Main.user_behavior tables) <= 10)%nat /\
     (length (Main.tool_popularity tables) <= 5)%nat).
Proof.
  unfold Main._generate_insights. split.
  - intros H. destruct (Nat.ltb_spec 10 (length (Main.data_buffer self))); [lia | reflexivity].
  - intros tables. destruct (Nat.ltb_spec 10 (length (Main.data_buffer self))); [|discriminate].
    destruct (Main.pandas env _) as [t|e]; [|discriminate].
    intros Ht. injection Ht as <-. cbn [Main.user_behavior Main.tool_popularity].
    rewrite !List.length_firstn. lia.
Qed.

Lemma insights_are_bounded_witness :
  Main._generate_insights quiet_env
    (Main.processor (world_of (repeat (simple_event "page_view" "A") 10)))
    (simple_event "page_view" "A")
  = Main.InsightsMessage "Insufficient data for insights".
Proof.
  apply (proj1 (insights_are_bounded quiet_env
                  (Main.processor (world_of (repeat (simple_event "page_view" "A") 10)))
                  (simple_event "page_view" "A"))).
  vm_compute. lia.
Defined.

(** ** The organization counters in Redis *)

Lemma event_key_not_org_key (env : Main.Env) (event : Main.AnalyticsEvent)
    (organization_id : string) :
  event_key env event <> org_key organization_id.
Proof. unfold event_key, org_key. cbn. intros H. discriminate H. Qed.

(** [_store_in_redis] on a client, case by case. *)
Lemma store_on_spec (env : Main.Env) (event : Main.AnalyticsEvent) (r : Redis.server) :
  Main.store_on env event r
  = if Redis.reachable r then
      let with_event :=
        {| Redis.reachable := true;
           Redis.db := <[event_key env event :=
                           {| Redis.value := Redis.RStr (Main.json_dumps env event);
                              Redis.ttl := Some 86400 |}]> (Redis.db r) |} in
      if org_key_usable r (Main.organization_id event) then
        if org_counter_full r (Main.organization_id event) (Main.event_type event)
        then (with_event,
              Raise (ResponseError "increment or decrement would overflow"))
        else ({| Redis.reachable := true; Redis.db := stored_db env event r |}, Ok tt)
      else (with_event, Raise (ResponseError "WRONGTYPE"))
    else (r, Raise (ConnectionError "Error connecting to Redis")).
Proof.
  unfold Main.store_on, and_then, ret, Redis.setex, Redis.hincrby, Redis.expire,
    Redis.connected, Redis.with_db, org_key_usable, org_counter_full, stored_db, org_hash.
  fold (event_key env event). fold (org_key (Main.organization_id event)).
  destruct (Redis.reachable r) eqn:Er; [|reflexivity].
  cbv zeta. cbn [Redis.reachable Redis.db].
  rewrite lookup_insert_ne by apply event_key_not_org_key.
  destruct (Redis.db r !! org_key (Main.organization_id event)) as [[[n|s|h] t]|] eqn:Eo;
    cbn [Redis.reachable Redis.db Redis.value Redis.ttl]; try reflexivity.
  - destruct (Redis.overflows (default 0 (h !! Main.event_type event)) 1); [reflexivity|].
    cbn [Redis.reachable Redis.db].
    rewrite lookup_insert_eq. cbn [Redis.value]. now rewrite insert_insert_eq.
  - rewrite lookup_insert_eq. cbn [Redis.value].
    rewrite insert_insert_eq, lookup_empty. cbn.
    now rewrite insert_empty.
Qed.

(** What the key space of a successful store holds. *)
Lemma stored_db_effects (env : Main.Env) (event : Main.AnalyticsEvent) (r : Redis.server) :
  let r' := {| Redis.reachable := true; Redis.db := stored_db env event r |} in
  let organization := Main.organization_id event in
  let type := Main.event_type event in
  Redis.db r' !! event_key env event
    = Some {| Redis.value := Redis.RStr (Main.json_dumps env event);
              Redis.ttl := Some 86400 |} /\
  Redis.ttl_of r' (org_key organization) = Some (Some 86400) /\
  org_hash r' organization !! type
    = Some (default 0 (org_hash r organization !! type) + 1) /\
  (forall field, field <> type ->
     org_hash r' organization !! field = org_hash r organization !! field) /\
  (forall key, key <> event_key env event -> key <> org_key organization ->
     Redis.db r' !! key = Redis.db r !! key).
Proof.
  cbv zeta. cbn [Redis.db]. unfold Redis.ttl_of, org_hash at 1 3.
  cbn [Redis.db]. unfold stored_db.
  rewrite lookup_insert_eq.
  rewrite lookup_insert_ne by (intros E; symmetry in E; exact (event_key_not_org_key _ _ _ E)).
  rewrite lookup_insert_eq. cbn [Redis.value Redis.ttl fmap option_fmap option_map].
  repeat split.
  - now rewrite lookup_insert_eq.
  - intros field Hf. now rewrite lookup_insert_ne by congruence.
  - intros key H1 H2. now rewrite !lookup_insert_ne by congruence.
Qed.

(** X7: on a client, [_store_in_redis] succeeds exactly when the server
    is reachable, the organization key is free or holds a hash, and the
    organization's counter of the event type can still take one more
    within the signed 64-bit range. It then stores the event under its own
    key and raises that counter by one, both keys expiring after 24 hours,
    and leaves every other counter and every other key as they were. *)
Theorem store_in_redis_counts_event (env : Main.Env) (event : Main.AnalyticsEvent)
    (r : Redis.server) :
  let organization := Main.organization_id event in
  let type := Main.event_type event in
  ((exists r', Main._store_in_redis env event (Some r) = (Some r', Ok tt))
   <-> Redis.reachable r = true /\ org_key_usable r organization = true /\
       org_counter_full r organization type = false) /\
  (forall r',
     Main._store_in_redis env event (Some r) = (Some r', Ok tt) ->
     Redis.db r' !! event_key env event
       = Some {| Redis.value := Redis.RStr (Main.json_dumps env event);
                 Redis.ttl := Some 86400 |} /\
     Redis.ttl_of r' (org_key organization) = Some (Some 86400) /\
     org_hash r' organization !! type
       = Some (default 0 (org_hash r organization !! type) + 1) /\
     (forall field, field <> type ->
        org_hash r' organization !! field = org_hash r organization !! field) /\
     (forall key, key <> event_key env event -> key <> org_key organization ->
        Redis.db r' !! key = Redis.db r !! key)).
Proof.
  cbv zeta. unfold Main._store_in_redis. rewrite store_on_spec. cbv zeta. split.
  - split.
    + intros [r' H].
      destruct (Redis.reachable r); [|discriminate].
      destruct (org_key_usable r _); [|discriminate].
      destruct (org_counter_full r _ _); [discriminate | auto].
    + intros (-> & -> & ->). eauto.
  - intros r' H.
    destruct (Redis.reachable r); [|discriminate].
    destruct (org_key_usable r _); [|discriminate].
    destruct (org_counter_full r _ _); [discriminate|].
    injection H as <-. apply stored_db_effects.
Qed.

Lemma store_in_redis_counts_event_witness :
  exists r',
    Main._store_in_redis quiet_env (simple_event "api_call" "A") (Some empty_redis)
      = (Some r', Ok tt) /\
    org_hash r' "acme" !! "api_call" = Some 1.
Proof.
  destruct (proj2 (proj1 (store_in_redis_counts_event quiet_env
                            (simple_event "api_call" "A") empty_redis))
              (conj eq_refl (conj eq_refl eq_refl))) as [r' H].
  exists r'. split; [exact H|].
  apply (proj2 (store_in_redis_counts_event quiet_env (simple_event "api_call" "A")
                  empty_redis) r' H).
Defined.

(** At the 64-bit maximum the counter is left alone: the store raises
    after the event itself has been written. *)
Lemma store_refused_at_int64_max :
  let full := {| Redis.reachable := true;
                 Redis.db := {[ "metrics:acme" :=
                                  {| Redis.value :=
                                       Redis.RHash {[ "api_call" := Redis.int64_max ]};
                                     Redis.ttl := None |} ]} |} in
  snd (Main._store_in_redis quiet_env (simple_event "api_call" "A") (Some full))
  = Raise (ResponseError "increment or decrement would overflow").
Proof. vm_compute. reflexivity. Qed.

(** The client a call of [process_event] leaves behind. *)
Lemma process_event_redis (env : Main.Env) (event : Main.AnalyticsEvent) (w : Main.World) :
  Main.redis_client (fst (Main.process_event env event w))
  = match Main._update_real_time_metrics event
            (Main.real_time_metrics (Main.processor w)) with
    | Ok _ => fst (Main._store_in_redis env event (Main.redis_client w))
    | Raise _ => Main.redis_client w
    end.
Proof.
  unfold Main.process_event.
  destruct (Main._update_real_time_metrics event _); [|reflexivity].
  destruct (Main._store_in_redis env event _) as [r [[]|e]]; reflexivity.
Qed.

Lemma org_key_inj (a b : string) : org_key a = org_key b -> a = b.
Proof. unfold org_key. cbn. intros H. now injection H. Qed.

(** What the dashboard reads from a reachable server. *)
Lemma hgetall_org_hash (r : Redis.server) (organization_id : string) :
  Redis.reachable r = true ->
  org_key_usable r organization_id = true ->
  snd (Redis.hgetall ("metrics:" +:+ organization_id) r)
  = Ok (org_hash r organization_id).
Proof.
  intros Hr Hu. unfold Redis.hgetall, Redis.connected, org_key_usable, org_hash in *.
  fold (org_key organization_id). rewrite Hr.
  destruct (Redis.db r !! org_key organization_id) as [[[n|s|h] t]|];
    try discriminate; reflexivity.
Qed.

(** X8: once [process_event] has answered with a processed result on a
    Redis client, the dashboard of the event's organization shows the
    counter of the event type one higher than Redis held it before and the
    other counters unchanged, together with the processor's running
    counters; the dashboard can only answer an error when the pandas
    grouping raises. The counters of every other organization are as they
    were. *)
Theorem dashboard_shows_stored_event (env : Main.Env) (event : Main.AnalyticsEvent)
    (w : Main.World) (r : Redis.server)
    (hourly : list Main.AnalyticsEvent -> result (list (Z * nat))) (now : Z)
    (user_sessions : gmap string Main.Session)
    (insights : Main.Insights) (anomalies : list Main.Anomaly) (timestamp : Z) :
  Main.redis_client w = Some r ->
  snd (Main.process_event env event w) = Main.Processed insights anomalies timestamp ->
  let w' := fst (Main.process_event env event w) in
  let organization := Main.organization_id event in
  let type := Main.event_type event in
  match MainEndpoints.get_real_time_dashboard_data hourly now user_sessions organization w' with
  | MainEndpoints.DashboardData metrics counters _ _ _ =>
      metrics = Main.real_time_metrics (Main.processor w') /\
      counters !! type = Some (default 0 (org_hash r organization !! type) + 1) /\
      (forall field, field <> type ->
         counters !! field = org_hash r organization !! field)
  | MainEndpoints.DashboardError e => exists frame, hourly frame = Raise e
  end /\
  (forall r' other,
     Main.redis_client w' = Some r' -> other <> organization ->
     org_hash r' other = org_hash r other).
Proof.
  intros Hc Hres. cbv zeta.
  destruct (process_event_cases env event w)
    as [(e & _ & Hr) | [(m & e & _ & _ & Hr) | (m & Hm & Hs & _)]];
    [rewrite Hr in Hres; discriminate | rewrite Hr in Hres; discriminate |].
  unfold store_succeeds in Hs.
  pose proof (process_event_redis env event w) as Hredis.
  rewrite Hm, Hc in Hredis. rewrite Hc in Hs.
  unfold Main._store_in_redis in Hredis, Hs. rewrite store_on_spec in Hredis, Hs.
  cbv zeta in Hredis, Hs.
  destruct (Redis.reachable r) eqn:Ereach; [|discriminate Hs].
  destruct (org_key_usable r (Main.organization_id event)) eqn:Eusable; [|discriminate Hs].
  destruct (org_counter_full r (Main.organization_id event) (Main.event_type event))
    eqn:Efull; [discriminate Hs|].
  cbn [fst] in Hredis.
  destruct (stored_db_effects env event r) as (_ & Httl & Hcount & Hothers & Hkeys).
  split.
  - unfold MainEndpoints.get_real_time_dashboard_data. rewrite Hredis.
    rewrite hgetall_org_hash; [|reflexivity|].
    + destruct (20 <? _)%nat.
      * destruct (hourly _) as [trends|e] eqn:Eh; [auto | eauto].
      * auto.
    + unfold org_key_usable. unfold Redis.ttl_of in Httl.
      destruct (Redis.db _ !! org_key (Main.organization_id event)) as [[[n|s|h] t]|] eqn:E;
        try reflexivity; try discriminate.
      * unfold org_hash in Hcount. rewrite E in Hcount. rewrite lookup_empty in Hcount.
        discriminate.
      * unfold org_hash in Hcount. rewrite E in Hcount. rewrite lookup_empty in Hcount.
        discriminate.
  - intros r' other Hr' Hne. rewrite Hredis in Hr'. injection Hr' as <-.
    unfold org_hash. rewrite Hkeys; [reflexivity | |].
    + intros E. symmetry in E. exact (event_key_not_org_key _ _ _ E).
    + intros E. apply org_key_inj in E. contradiction.
Qed.

Lemma dashboard_shows_stored_event_witness :
  let event := simple_event "api_call" "A" in
  let w := {| Main.processor := Main.init; Main.redis_client := Some empty_redis |} in
  match MainEndpoints.get_real_time_dashboard_data no_trends 0 ∅ "acme"
          (fst (Main.process_event quiet_env event w)) with
  | MainEndpoints.DashboardData metrics counters _ _ _ =>
      metrics = Main.real_time_metrics
                  (Main.processor (fst (Main.process_event quiet_env event w))) /\
      counters !! "api_call" = Some 1 /\
      (forall field, field <> "api_call" -> counters !! field = None)
  | MainEndpoints.DashboardError e => exists frame, no_trends frame = Raise e
  end.
Proof.
  cbv zeta.
  apply (proj1 (dashboard_shows_stored_event quiet_env (simple_event "api_call" "A")
                  {| Main.processor := Main.init; Main.redis_client := Some empty_redis |}
                  empty_redis no_trends 0 ∅
                  (Main.InsightsMessage "Insufficient data for insights") [] 0
                  eq_refl eq_refl)).
Defined.

(** ** Connections of [main.py] *)

Section ScopedDeliveries.

Context {Msg : Type}.
Variable send_ok : Main.WebSocket -> bool.
Variable organization_id : string.
Variable message : Msg.
Variable exclude : option string.

Lemma addressed_spec (hub : Main.Hub Msg) (conn_id : string) :
  Main.addressed hub organization_id exclude conn_id = true
  <-> exclude <> Some conn_id /\
      exists session,
        Main.user_sessions hub !! conn_id = Some session /\
        Main.session_organization_id session = organization_id.
Proof.
  unfold Main.addressed. rewrite andb_true_iff, negb_true_iff.
  rewrite bool_decide_eq_false, bool_decide_eq_true. split.
  - intros [Hx Hs]. split; [congruence|].
    destruct (Main.user_sessions hub !! conn_id) as [session|]; [|discriminate].
    exists session. split; [reflexivity|]. cbn in Hs. congruence.
  - intros [Hx (session & -> & <-)]. split; [congruence | reflexivity].
Qed.

Lemma scoped_deliveries_In (hub : Main.Hub Msg) (websocket : Main.WebSocket) (m : Msg) :
  In (websocket, m) (scoped_deliveries send_ok organization_id message exclude hub)
  <-> m = message /\ send_ok websocket = true /\
      exists conn_id,
        In (conn_id, websocket) (Main.active_connections hub) /\
        Main.addressed hub organization_id exclude conn_id = true.
Proof.
  unfold scoped_deliveries. rewrite organization_loop_spec, List.in_map_iff. split.
  - intros ([conn_id ws] & Heq & Hin). cbn [fst snd] in *. injection Heq as -> ->.
    apply List.filter_In in Hin as [Hin Hb]. cbn [fst snd] in Hb.
    apply andb_true_iff in Hb as [Ha Hok]. eauto.
  - intros (-> & Hok & conn_id & Hin & Ha). exists (conn_id, websocket).
    split; [reflexivity|]. apply List.filter_In. cbn [fst snd].
    rewrite Ha, Hok. auto.
Qed.

End ScopedDeliveries.

(** X9: a pass of [broadcast_to_organization] appends to the trace exactly
    the message for the registered connections whose session belongs to the
    organization, whose id is not the excluded one and whose send succeeds:
    nothing goes to a connection of another organization, to one without a
    session, or to the originator. *)
Theorem scoped_broadcast_respects_scope (send_ok : Main.WebSocket -> bool)
    (organization_id message : string) (exclude : option string)
    (hub : Main.Hub string) :
  exists delivered,
    Main.sent (Main.broadcast_to_organization send_ok organization_id message exclude hub)
    = Main.sent hub ++ delivered /\
    forall websocket m,
      In (websocket, m) delivered
      <-> m = message /\ send_ok websocket = true /\
          exists conn_id session,
            In (conn_id, websocket) (Main.active_connections hub) /\
            Main.user_sessions hub !! conn_id = Some session /\
            Main.session_organization_id session = organization_id /\
            exclude <> Some conn_id.
Proof.
  exists (scoped_deliveries send_ok organization_id message exclude hub).
  split; [reflexivity|]. intros websocket m. rewrite scoped_deliveries_In. split.
  - intros (-> & Hok & conn_id & Hin & Ha).
    apply addressed_spec in Ha as [Hx (session & Hs & Ho)].
    repeat split; try assumption. exists conn_id, session. auto.
  - intros (-> & Hok & conn_id & session & Hin & Hs & Ho & Hx).
    repeat split; try assumption. exists conn_id. split; [exact Hin|].
    apply addressed_spec. split; [exact Hx|]. eauto.
Qed.

Lemma dict_set_In {V : Type} (key : string) (v : V) (d : list (string * V)) :
  In (key, v) (MainEndpoints.dict_set key v d).
Proof.
  induction d as [|[k x] rest IH]; cbn [MainEndpoints.dict_set].
  - left. reflexivity.
  - destruct (String.eqb_spec k key) as [->|_]; [left; reflexivity | right; exact IH].
Qed.

Lemma dict_set_fresh {V : Type} (key : string) (v : V) (d : list (string * V)) :
  ~ In key (map fst d) -> MainEndpoints.dict_set key v d = d ++ [(key, v)].
Proof.
  induction d as [|[k x] rest IH]; intros Hfresh; cbn [MainEndpoints.dict_set app].
  - reflexivity.
  - cbn [map fst In] in Hfresh.
    destruct (String.eqb_spec k key) as [->|_]; [tauto|].
    rewrite IH by tauto. reflexivity.
Qed.

Lemma dict_del_fresh {V : Type} (key : string) (d : list (string * V)) :
  ~ In key (map fst d) -> MainEndpoints.dict_del key d = d.
Proof.
  induction d as [|[k x] rest IH]; intros Hfresh; [reflexivity|].
  cbn [map fst In] in Hfresh. unfold MainEndpoints.dict_del in *.
  cbn [List.filter fst].
  destruct (String.eqb_spec k key) as [->|_]; [tauto|].
  cbn [negb]. rewrite IH by tauto. reflexivity.
Qed.

(** X10: the life of a connection of [main.py]. Once connected for an
    organization it is reached by every pass to that organization that does
    not exclude it and whose send succeeds; once its [finally] block has
    run, no pass delivers anything through its id; and connecting under a
    fresh id and closing again leaves both registries as they were. *)
Theorem scoped_connection_lifecycle (connection_id : string)
    (websocket : Main.WebSocket) (organization_id : string) (now : Z)
    (hub : Main.Hub string) :
  (forall send_ok message exclude,
     send_ok websocket = true -> exclude <> Some connection_id ->
     In (websocket, message)
        (scoped_deliveries send_ok organization_id message exclude
           (MainEndpoints.websocket_connect connection_id websocket organization_id now hub))) /\
  (forall send_ok organization message exclude ws m,
     In (ws, m)
        (scoped_deliveries send_ok organization message exclude
           (MainEndpoints.websocket_finally connection_id hub)) ->
     exists other, other <> connection_id /\ In (other, ws) (Main.active_connections hub)) /\
  (~ In connection_id (map fst (Main.active_connections hub)) ->
   Main.user_sessions hub !! connection_id = None ->
   MainEndpoints.websocket_finally connection_id
     (MainEndpoints.websocket_connect connection_id websocket organization_id now hub)
   = hub).
Proof.
  split; [|split].
  - intros send_ok message exclude Hok Hx. apply scoped_deliveries_In.
    split; [reflexivity|]. split; [exact Hok|]. exists connection_id. split.
    + cbn [MainEndpoints.websocket_connect Main.active_connections]. apply dict_set_In.
    + apply addressed_spec. split; [exact Hx|].
      cbn [MainEndpoints.websocket_connect Main.user_sessions].
      rewrite lookup_insert_eq. eauto.
  - intros send_ok organization message exclude ws m Hin.
    apply scoped_deliveries_In in Hin as (_ & _ & conn_id & Hin & _).
    cbn [MainEndpoints.websocket_finally Main.active_connections] in Hin.
    unfold MainEndpoints.dict_del in Hin. apply List.filter_In in Hin as [Hin Hne].
    cbn [fst] in Hne. exists conn_id. split; [|exact Hin].
    intros ->. rewrite String.eqb_refl in Hne. discriminate.
  - intros Hfresh Hnone. destruct hub as [active sessions log].
    cbn [Main.active_connections Main.user_sessions] in *.
    unfold MainEndpoints.websocket_finally, MainEndpoints.websocket_connect.
    cbn [Main.active_connections Main.user_sessions Main.sent]. f_equal.
    + rewrite dict_set_fresh by exact Hfresh.
      unfold MainEndpoints.dict_del. rewrite List.filter_app. cbn [List.filter fst].
      rewrite String.eqb_refl. cbn [negb]. rewrite app_nil_r.
      now apply dict_del_fresh.
    + now apply delete_insert_id.
Qed.

Lemma scoped_connection_lifecycle_witness :
  In (3%nat, "hello")
     (scoped_deliveries (fun _ => true) "acme" "hello" (Some "c1")
        (MainEndpoints.websocket_connect "c3" 3%nat "acme" 0 acme_hub)) /\
  MainEndpoints.websocket_finally "c3"
    (MainEndpoints.websocket_connect "c3" 3%nat "acme" 0 acme_hub) = acme_hub.
Proof.
  split.
  - apply (proj1 (scoped_connection_lifecycle "c3" 3%nat "acme" 0 acme_hub)
             (fun _ => true) "hello" (Some "c1")).
    + reflexivity.
    + discriminate.
  - apply (proj2 (proj2 (scoped_connection_lifecycle "c3" 3%nat "acme" 0 acme_hub))).
    + vm_compute. intros [H | [H | []]]; discriminate H.
    + vm_compute. reflexivity.
Defined.

(** ** Start-up against an unreachable server *)

Lemma unreachable_call (env : Main.Env) (event : Main.AnalyticsEvent) (w : Main.World)
    (server : Redis.server) :
  Redis.reachable server = false ->
  Main.redis_client w = Some server ->
  (exists e, snd (Main.process_event env event w) = Main.NotProcessed e) /\
  Main.redis_client (fst (Main.process_event env event w)) = Some server.
Proof.
  intros Hdown Hc.
  assert (Hs : Main._store_in_redis env event (Some server)
               = (Some server, Raise (ConnectionError "Error connecting to Redis"))).
  { unfold Main._store_in_redis. rewrite store_on_spec, Hdown. reflexivity. }
  rewrite process_event_redis. unfold Main.process_event. rewrite Hc, Hs.
  destruct (Main._update_real_time_metrics event _); cbn [fst snd]; eauto.
Qed.

(** X11: [startup_event] binds the client before it pings. When the server
    is unreachable the background task is not started, and from then on, as
    long as the server stays unreachable, every ingest is answered by the
    error dictionary while its event is still appended, so the buffer grows
    by one entry per call without ever being cut. *)
Theorem unreachable_redis_fails_every_ingest (server : Redis.server) (w : Main.World)
    (calls : list (Main.Env * Main.AnalyticsEvent)) :
  Redis.reachable server = false ->
  let started := MainEndpoints.startup_event server w in
  let steps := map (fun call => Ingest (fst call) (snd call)) calls in
  snd started = false /\
  Forall (fun r => exists e, r = Main.NotProcessed e) (results steps (fst started)) /\
  length (results steps (fst started)) = length calls /\
  Main.data_buffer (Main.processor (run steps (fst started)))
  = Main.data_buffer (Main.processor w) ++ map snd calls.
Proof.
  intros Hdown. cbv zeta. split; [exact Hdown|].
  unfold MainEndpoints.startup_event. cbn [fst snd].
  assert (Hgen : forall w0,
    Main.redis_client w0 = Some server ->
    Forall (fun r => exists e, r = Main.NotProcessed e)
      (results (map (fun call => Ingest (fst call) (snd call)) calls) w0) /\
    length (results (map (fun call => Ingest (fst call) (snd call)) calls) w0)
      = length calls /\
    Main.data_buffer (Main.processor
      (run (map (fun call => Ingest (fst call) (snd call)) calls) w0))
    = Main.data_buffer (Main.processor w0) ++ map snd calls).
  { induction calls as [|[env event] rest IH]; intros w0 Hc.
    - cbn. rewrite app_nil_r. auto.
    - cbn [map results fst snd run fold_left step length].
      destruct (unreachable_call env event w0 server Hdown Hc) as [Hres Hc'].
      destruct (IH _ Hc') as (Hall & Hlen & Hbuf).
      split; [constructor; assumption|]. split; [now rewrite Hlen|].
      unfold run in Hbuf. rewrite Hbuf, process_event_appends. unfold buffer_after.
      now rewrite <- app_assoc. }
  apply (Hgen {| Main.processor := Main.processor w; Main.redis_client := Some server |}).
  reflexivity.
Qed.

Lemma unreachable_redis_fails_every_ingest_witness :
  let server := {| Redis.reachable := false; Redis.db := ∅ |} in
  let calls := [(quiet_env, simple_event "api_call" "A");
                (quiet_env, simple_event "error" "B")] in
  let started := MainEndpoints.startup_event server (world_of []) in
  let steps := map (fun call => Ingest (fst call) (snd call)) calls in
  snd started = false /\
  Forall (fun r => exists e, r = Main.NotProcessed e) (results steps (fst started)) /\
  length (results steps (fst started)) = length calls /\
  Main.data_buffer (Main.processor (run steps (fst started)))
  = Main.data_buffer (Main.processor (world_of [])) ++ map snd calls.
Proof.
  apply (unreachable_redis_fails_every_ingest
           {| Redis.reachable := false; Redis.db := ∅ |} (world_of [])
           [(quiet_env, simple_event "api_call" "A");
            (quiet_env, simple_event "error" "B")]).
  reflexivity.
Defined.

(** ** Rounding and the snapshot *)

Lemma round_half_even_bounds (x : Q) (lo hi : Z) :
  (inject_Z lo <= x)%Q -> (x <= inject_Z hi)%Q ->
  lo <= round_half_even x <= hi.
Proof.
  intros Hlo Hhi. unfold round_half_even.
  pose proof (Qfloor_le x) as Hf.
  assert (Hf1 : lo <= Qfloor x).
  { rewrite <- (Qfloor_Z lo). now apply Qfloor_resp_le. }
  assert (Hf2 : Qfloor x <= hi).
  { rewrite <- (Qfloor_Z hi). now apply Qfloor_resp_le. }
  destruct (Qltb (2 * (x - inject_Z (Qfloor x))) 1) eqn:E1; [lia|].
  apply Qltb_ge in E1.
  assert (Hlt : Qfloor x < hi).
  { rewrite Zlt_Qlt. lra. }
  destruct (Qltb 1 _); [lia|]. destruct (Z.even _); lia.
Qed.

Lemma round_half_even_close (x : Q) :
  (-(1#2) <= inject_Z (round_half_even x) - x <= 1#2)%Q.
Proof.
  unfold round_half_even.
  pose proof (Qfloor_le x) as Hf. pose proof (Qlt_floor x) as Hc.
  rewrite inject_Z_plus in Hc. change (inject_Z 1) with 1%Q in Hc.
  destruct (Qltb (2 * (x - inject_Z (Qfloor x))) 1) eqn:E1.
  - apply Qltb_lt in E1. lra.
  - apply Qltb_ge in E1.
    destruct (Qltb 1 (2 * (x - inject_Z (Qfloor x)))) eqn:E2.
    + rewrite inject_Z_plus. change (inject_Z 1) with 1%Q. lra.
    + apply Qltb_ge in E2. destruct (Z.even _).
      * lra.
      * rewrite inject_Z_plus. change (inject_Z 1) with 1%Q. lra.
Qed.

Lemma round2_bounds (q : Q) : (0 <= q <= 100)%Q -> (0 <= round2 q <= 100)%Q.
Proof.
  intros [H0 H1]. unfold round2.
  destruct (round_half_even_bounds (q * 100) 0 10000) as [Ha Hb].
  - change (inject_Z 0) with 0%Q. lra.
  - change (inject_Z 10000) with 10000%Q. lra.
  - rewrite Zle_Qle in Ha, Hb. change (inject_Z 0) with 0%Q in Ha.
    change (inject_Z 10000) with 10000%Q in Hb.
    set (r := inject_Z (round_half_even (q * 100))) in *.
    unfold Qdiv. change (/ 100)%Q with (1#100)%Q. lra.
Qed.

Lemma round2_close (q : Q) : (-(1#200) <= round2 q - q <= 1#200)%Q.
Proof.
  unfold round2. pose proof (round_half_even_close (q * 100)) as H.
  set (r := inject_Z (round_half_even (q * 100))) in *.
  unfold Qdiv. change (/ 100)%Q with (1#100)%Q. lra.
Qed.

(** X12: the [error_rate] field of every snapshot lies between 0 and 100
    and is within 0.005 of the error rate computed from the window. *)
Theorem snapshot_error_rate_is_bounded (db : App.Db) (now : Z) (host : App.Host) :
  let s := App.calculate_real_time_metrics db now host in
  (0 <= App.error_rate s <= 100)%Q /\
  (-(1#200) <= App.error_rate s - App.Calc.error_rate db now <= 1#200)%Q.
Proof.
  cbv zeta. cbn [App.calculate_real_time_metrics App.error_rate]. split.
  - apply round2_bounds.
    destruct (Nat.eq_dec (length (App.events_since (App.hour_ago now) db)) 0%nat) as [E|E].
    + rewrite (error_rate_empty db now E). split; discriminate.
    + rewrite (error_rate_nonempty db now E).
      apply percentage_bounds; [apply count_if_le | lia].
  - apply round2_close.
Qed.

Lemma events_since_none (db : App.Db) (since : Z) :
  (forall e, In e (App.events db) -> App.e_timestamp e <= since) ->
  App.events_since since db = [].
Proof.
  intros H. unfold App.events_since.
  induction (App.events db) as [|e rest IH]; [reflexivity|].
  cbn [List.filter].
  destruct (Z.ltb_spec since (App.e_timestamp e)) as [Hlt|_].
  - specialize (H e (or_introl eq_refl)). lia.
  - apply IH. intros e' He'. apply H. now right.
Qed.

(** X13: when no stored event is stamped later than one hour before the
    call and the CPU sample is below 80, the snapshot reports no active
    user, no API call, an error rate of 0 and health "healthy". *)
Theorem quiet_hour_snapshot (db : App.Db) (now : Z) (host : App.Host) :
  (forall e, In e (App.events db) -> App.e_timestamp e <= App.hour_ago now) ->
  (App.cpu_percent host < 80)%Q ->
  let s := App.calculate_real_time_metrics db now host in
  App.active_users s = 0%nat /\
  (App.api_calls_per_minute s == 0)%Q /\
  (App.error_rate s == 0)%Q /\
  App.total_events_last_hour s = 0%nat /\
  App.system_health s = "healthy".
Proof.
  intros Hold Hcpu. cbv zeta.
  pose proof (events_since_none db (App.hour_ago now) Hold) as Hw.
  unfold App.calculate_real_time_metrics.
  cbn [App.active_users App.api_calls_per_minute App.error_rate
       App.total_events_last_hour App.system_health].
  unfold App.Calc.active_users, App.Calc.api_calls_per_minute, App.Calc.api_calls,
    App.Calc.error_rate, App.Calc.result.
  rewrite Hw. cbn [omap remove_dups length count_if List.filter fst snd Nat.ltb Nat.leb].
  repeat split; try reflexivity.
  apply system_health_healthy. split; [reflexivity | exact Hcpu].
Qed.

Lemma quiet_hour_snapshot_witness :
  let s := App.calculate_real_time_metrics
             (events_only [plain_event "api_error" (Some "u1") 0])
             (App.one_hour + 5) idle_host in
  App.active_users s = 0%nat /\
  (App.api_calls_per_minute s == 0)%Q /\
  (App.error_rate s == 0)%Q /\
  App.total_events_last_hour s = 0%nat /\
  App.system_health s = "healthy".
Proof.
  apply (quiet_hour_snapshot (events_only [plain_event "api_error" (Some "u1") 0])
           (App.one_hour + 5) idle_host).
  - intros e [<- | []]. vm_compute. discriminate.
  - reflexivity.
Defined.

(** A share grows with its part and shrinks with its whole. *)
Lemma percentage_le (a b c d : nat) :
  (0 < b)%nat -> (0 < d)%nat -> (a * d <= c * b)%nat ->
  (inject_Z (Z.of_nat a) / inject_Z (Z.of_nat b) * 100
   <= inject_Z (Z.of_nat c) / inject_Z (Z.of_nat d) * 100)%Q.
Proof.
  intros Hb Hd Hle.
  assert (Hb' : (0 < inject_Z (Z.of_nat b))%Q).
  { change 0%Q with (inject_Z 0). rewrite <- Zlt_Qlt. lia. }
  assert (Hd' : (0 < inject_Z (Z.of_nat d))%Q).
  { change 0%Q with (inject_Z 0). rewrite <- Zlt_Qlt. lia. }
  apply Qmult_le_compat_r; [|discriminate].
  apply Qle_shift_div_r; [exact Hb'|].
  unfold Qdiv. rewrite <- Qmult_assoc, (Qmult_comm (/ _)), Qmult_assoc.
  apply Qle_shift_div_l; [exact Hd'|].
  rewrite <- !inject_Z_mult, <- Zle_Qle. lia.
Qed.

Lemma process_event_events (db_now : Z) (event : App.Event) (st : App.State) :
  App.events (App.database (fst (App.process_event db_now event st)))
  = App.events (App.database st) ++ [row_of event db_now].
Proof.
  unfold App.process_event.
  destruct (App.update_real_time_counters event (App.redis_client st)). reflexivity.
Qed.

(** X14: an event processed by [process_event] of [app.py] and stamped
    inside the one-hour window of a later snapshot enters that window; the
    error rate of the window does not fall when the event is of the error
    category and does not rise when it is not. *)
Theorem ingest_moves_error_rate (db_now : Z) (event : App.Event) (st : App.State)
    (now : Z) :
  App.hour_ago now < db_now ->
  let db := App.database st in
  let db' := App.database (fst (App.process_event db_now event st)) in
  App.events_since (App.hour_ago now) db'
    = App.events_since (App.hour_ago now) db ++ [row_of event db_now] /\
  (App.is_error_event (row_of event db_now) = true ->
   (App.Calc.error_rate db now <= App.Calc.error_rate db' now)%Q) /\
  (App.is_error_event (row_of event db_now) = false ->
   (App.Calc.error_rate db' now <= App.Calc.error_rate db now)%Q).
Proof.
  intros Hin. cbv zeta.
  assert (Hw : App.events_since (App.hour_ago now)
                 (App.database (fst (App.process_event db_now event st)))
               = App.events_since (App.hour_ago now) (App.database st)
                 ++ [row_of event db_now]).
  { unfold App.events_since. rewrite process_event_events, List.filter_app.
    cbn [List.filter row_of App.e_timestamp].
    destruct (Z.ltb_spec (App.hour_ago now) db_now); [reflexivity | lia]. }
  split; [exact Hw|].
  set (window := App.events_since (App.hour_ago now) (App.database st)) in *.
  assert (Hafter : forall b, App.is_error_event (row_of event db_now) = b ->
    App.Calc.error_rate (App.database (fst (App.process_event db_now event st))) now
    = (inject_Z (Z.of_nat (count_if App.is_error_event window + (if b then 1 else 0)))
       / inject_Z (Z.of_nat (length window + 1)) * 100)%Q).
  { intros b Hb. rewrite error_rate_nonempty by (rewrite Hw, List.length_app; cbn; lia).
    rewrite Hw. unfold count_if. rewrite List.filter_app, !List.length_app.
    cbn [List.filter]. rewrite Hb. destruct b; reflexivity. }
  pose proof (count_if_le App.is_error_event window) as Hle.
  split; intros Hb; rewrite (Hafter _ Hb).
  - destruct (Nat.eq_dec (length window) 0%nat) as [E|E].
    + rewrite (error_rate_empty _ now E).
      apply percentage_bounds; lia.
    + rewrite (error_rate_nonempty _ now E). fold window.
      apply percentage_le; nia.
  - destruct (Nat.eq_dec (length window) 0%nat) as [E|E].
    + rewrite (error_rate_empty _ now E).
      assert (count_if App.is_error_event window = 0%nat) as -> by lia.
      rewrite E. vm_compute. discriminate.
    + rewrite (error_rate_nonempty _ now E). fold window.
      apply percentage_le; nia.
Qed.

Lemma ingest_moves_error_rate_witness :
  let st := {| App.database := events_only [plain_event "api_error" (Some "u1") 5];
               App.redis_client := None |} in
  let db' := App.database (fst (App.process_event 7 page_view_by_u1 st)) in
  (App.Calc.error_rate db' 10 <= App.Calc.error_rate (App.database st) 10)%Q.
Proof.
  cbv zeta.
  apply (proj2 (proj2 (ingest_moves_error_rate 7 page_view_by_u1
                         {| App.database := events_only [plain_event "api_error" (Some "u1") 5];
                            App.redis_client := None |} 10 eq_refl))).
  reflexivity.
Defined.

(** ** The counters of [app.py] *)

Lemma incr_counter (key : string) (r r' : Redis.server) (n : Z) :
  Redis.incr key r = (r', Ok n) -> counter r' key = counter r key + 1.
Proof.
  unfold Redis.incr. intros H. apply connected_ok in H as [_ H].
  unfold counter. destruct (Redis.db r !! key) as [[v t]|] eqn:E.
  - destruct v as [k|s|h]; try discriminate.
    destruct (k <? Redis.int64_max); [|discriminate].
    injection H as <- _. cbn. now rewrite lookup_insert_eq.
  - injection H as <- _. cbn. now rewrite lookup_insert_eq.
Qed.

Lemma expire_counter (key key' : string) (s : Z) (r r' : Redis.server) (b : bool) :
  Redis.expire key s r = (r', Ok b) -> counter r' key' = counter r key'.
Proof.
  unfold Redis.expire. intros H. apply connected_ok in H as [_ H].
  unfold counter. destruct (Redis.db r !! key) as [e|] eqn:E.
  - injection H as <- _. cbn. destruct (decide (key = key')) as [<-|Hne].
    + rewrite lookup_insert_eq, E. now destruct e.
    + now rewrite lookup_insert_ne.
  - now injection H as <- _.
Qed.

Lemma counter_other (r r' : Redis.server) (key : string) :
  Redis.db r' !! key = Redis.db r !! key -> counter r' key = counter r key.
Proof. unfold counter. now intros ->. Qed.

(** X15: a successful counter update raises the counter of the event type
    by exactly one and, for an event with a non-empty user id, the counter
    of that user by exactly one; every other key keeps its value, and an
    event without user touches no key but the event-type counter. *)
Theorem counters_count_events (event_data : App.Event) (r r' : Redis.server) :
  App.update_counters_on event_data r = (r', Ok tt) ->
  let event_counter := "counter:event:" +:+ App.event_type event_data in
  counter r' event_counter = counter r event_counter + 1 /\
  (forall u, App.user_id event_data = Some u -> u <> "" ->
     counter r' ("counter:user:" +:+ u) = counter r ("counter:user:" +:+ u) + 1 /\
     forall key, key <> event_counter -> key <> "counter:user:" +:+ u ->
       Redis.db r' !! key = Redis.db r !! key) /\
  (App.truthy (App.user_id event_data) = false ->
   forall key, key <> event_counter -> Redis.db r' !! key = Redis.db r !! key).
Proof.
  unfold App.update_counters_on, and_then, ret. cbv zeta.
  destruct (Redis.incr _ r) as [r1 [n1|e1]] eqn:E1; [|discriminate].
  match goal with
  | |- context [ (if ?c then ?a else ?b) r1 ] =>
      destruct ((if c then a else b) r1) as [r2 [n2|e2]] eqn:E2; [|discriminate]
  end.
  destruct (Redis.expire _ 86400 r2) as [r3 [b|e3]] eqn:E3; [|discriminate].
  intros H. injection H as <-.
  split; [|split].
  - rewrite (expire_counter _ _ _ _ _ _ E3).
    rewrite <- (incr_counter _ _ _ _ E1).
    destruct (App.truthy (App.user_id event_data)).
    + apply counter_other. eapply incr_other; [|exact E2].
      intros Heq. symmetry in Heq. exact (counter_keys_differ _ _ Heq).
    + now injection E2 as <- _.
  - intros u Hu Hne.
    assert (Ht : App.truthy (App.user_id event_data) = true).
    { rewrite Hu. cbn. destruct (String.eqb_spec u ""); [contradiction | reflexivity]. }
    rewrite Ht, Hu in E2. cbn [default from_option] in E2. unfold id in E2.
    split.
    + rewrite (expire_counter _ _ _ _ _ _ E3), (incr_counter _ _ _ _ E2).
      f_equal. apply counter_other. eapply incr_other; [|exact E1].
      apply counter_keys_differ.
    + intros key Hk1 Hk2.
      erewrite expire_other; [| | exact E3]; [|congruence].
      erewrite incr_other; [| | exact E2]; [|congruence].
      eapply incr_other; [|exact E1]. congruence.
  - intros Ht key Hk. rewrite Ht in E2. injection E2 as <- _.
    erewrite expire_other; [| | exact E3]; [|congruence].
    eapply incr_other; [|exact E1]. congruence.
Qed.

Lemma counters_count_events_witness :
  exists r',
    App.update_counters_on page_view_by_u1 empty_redis = (r', Ok tt) /\
    counter r' "counter:event:page_view" = 1 /\
    counter r' "counter:user:u1" = 1.
Proof.
  eexists. split; [vm_compute; reflexivity|].
  match goal with
  | |- counter ?r _ = _ /\ _ =>
      pose proof (counters_count_events page_view_by_u1 empty_redis r) as H
  end.
  specialize (H ltac:(vm_compute; reflexivity)). cbv zeta in H.
  destruct H as (H1 & H2 & _). split; [exact H1|].
  apply (H2 "u1" eq_refl). discriminate.
Defined.

(** ** The scheduler round of [app.py] *)

(** X16: a round of [update_real_time_metrics] ends in one of two ways.
    With a client whose server is unreachable the cache write raises and
    the round stops there: nothing is broadcast, nothing is persisted, the
    service is left as it was. In every other case the round completes:
    the snapshot is cached under "real_time_metrics" for 60 seconds when
    there is a client, every registered connection whose send succeeds gets
    the "metrics_update" message, the others are removed, and one row is
    appended to [system_metrics]. *)
Theorem metrics_round_by_cache_state (json_dumps : App.MetricsSnapshot -> string)
    (send_ok : App.WebSocket -> bool) (host : App.Host) (now sent_at db_now : Z)
    (s : AppEndpoints.Service) :
  let metrics := App.calculate_real_time_metrics (AppEndpoints.db s) now host in
  let completed (client : option Redis.server) : AppEndpoints.Service :=
    {| AppEndpoints.db := AppEndpoints.db s;
       AppEndpoints.system_metrics :=
         AppEndpoints.store_system_metrics db_now metrics (AppEndpoints.system_metrics s);
       AppEndpoints.redis_client := client;
       AppEndpoints.analytics_queue := AppEndpoints.analytics_queue s;
       AppEndpoints.hub :=
         hub_after send_ok (metrics_update json_dumps metrics sent_at) (AppEndpoints.hub s) |} in
  AppEndpoints.update_real_time_metrics json_dumps send_ok host now sent_at db_now s
  = match AppEndpoints.redis_client s with
    | None => (completed None, Ok tt)
    | Some r =>
        if Redis.reachable r
        then (completed
                (Some {| Redis.reachable := true;
                         Redis.db :=
                           <["real_time_metrics" :=
                               {| Redis.value := Redis.RStr (json_dumps metrics);
                                  Redis.ttl := Some 60 |}]> (Redis.db r) |}),
              Ok tt)
        else (s, Raise (ConnectionError "Error connecting to Redis"))
    end.
Proof.
  cbv zeta. unfold AppEndpoints.update_real_time_metrics.
  pose proof (broadcast_to_clients_spec send_ok
                (metrics_update json_dumps
                   (App.calculate_real_time_metrics (AppEndpoints.db s) now host) sent_at)
                (AppEndpoints.hub s)) as Hb.
  cbn [metrics_update App.msg_type App.msg_data App.msg_timestamp] in Hb.
  destruct (AppEndpoints.redis_client s) as [r|] eqn:Ec.
  - unfold Redis.setex, Redis.connected, Redis.with_db.
    destruct (Redis.reachable r) eqn:Er.
    + rewrite Hb. reflexivity.
    + destruct s. cbn in *. now rewrite Ec.
  - rewrite Hb. reflexivity.
Qed.

(** A round on a reachable server caches the snapshot. *)
Lemma metrics_round_caches (json_dumps : App.MetricsSnapshot -> string)
    (send_ok : App.WebSocket -> bool) (host : App.Host) (now sent_at db_now : Z)
    (s : AppEndpoints.Service) (r : Redis.server) :
  AppEndpoints.redis_client s = Some r ->
  Redis.reachable r = true ->
  let metrics := App.calculate_real_time_metrics (AppEndpoints.db s) now host in
  let s1 := fst (AppEndpoints.update_real_time_metrics json_dumps send_ok host now
                   sent_at db_now s) in
  AppEndpoints.redis_client s1
    = Some {| Redis.reachable := true;
              Redis.db := <["real_time_metrics" :=
                              {| Redis.value := Redis.RStr (json_dumps metrics);
                                 Redis.ttl := Some 60 |}]> (Redis.db r) |}.
Proof.
  intros Hc Hr. cbv zeta. unfold AppEndpoints.update_real_time_metrics.
  rewrite Hc. unfold Redis.setex, Redis.connected, Redis.with_db. rewrite Hr.
  destruct (App.broadcast_to_clients _ _ _ _ _) as [hub' [[]|e]]; reflexivity.
Qed.

(** X17: the snapshot cached by a completed round is what a connecting
    client is sent first: after a round on a reachable server, a socket
    that connects is registered and, when its send succeeds, pushed the
    cached snapshot text. *)
Theorem connect_pushes_cached_snapshot (json_dumps : App.MetricsSnapshot -> string)
    (send_ok send_ok' : App.WebSocket -> bool) (host : App.Host) (now sent_at db_now : Z)
    (s : AppEndpoints.Service) (r : Redis.server) (websocket : App.WebSocket) :
  AppEndpoints.redis_client s = Some r ->
  Redis.reachable r = true ->
  json_dumps (App.calculate_real_time_metrics (AppEndpoints.db s) now host) <> "" ->
  send_ok' websocket = true ->
  let s1 := fst (AppEndpoints.update_real_time_metrics json_dumps send_ok host now
                   sent_at db_now s) in
  snd (AppEndpoints.websocket_connect send_ok' websocket s1)
    = Ok (Some (json_dumps (App.calculate_real_time_metrics (AppEndpoints.db s) now host))) /\
  App.active_connections
    (AppEndpoints.hub (fst (AppEndpoints.websocket_connect send_ok' websocket s1)))
    = App.active_connections (AppEndpoints.hub s1) ++ [websocket].
Proof.
  intros Hc Hr Hjson Hok. cbv zeta.
  pose proof (metrics_round_caches json_dumps send_ok host now sent_at db_now s r Hc Hr)
    as Hcache. cbv zeta in Hcache.
  unfold AppEndpoints.websocket_connect. rewrite Hcache.
  unfold Redis.get, Redis.connected. cbn [Redis.reachable Redis.db].
  rewrite lookup_insert_eq.
  destruct (String.eqb_spec
              (json_dumps (App.calculate_real_time_metrics (AppEndpoints.db s) now host)) "")
    as [E|_]; [contradiction|].
  rewrite Hok. split; reflexivity.
Qed.

Lemma connect_pushes_cached_snapshot_witness :
  let s := fresh_service (Some empty_redis) in
  let s1 := fst (AppEndpoints.update_real_time_metrics sample_json (fun _ => true)
                   idle_host 10 11 12 s) in
  snd (AppEndpoints.websocket_connect (fun _ => true) 7%nat s1) = Ok (Some "{...}") /\
  App.active_connections
    (AppEndpoints.hub (fst (AppEndpoints.websocket_connect (fun _ => true) 7%nat s1)))
    = App.active_connections (AppEndpoints.hub s1) ++ [7%nat].
Proof.
  apply (connect_pushes_cached_snapshot sample_json (fun _ => true) (fun _ => true)
           idle_host 10 11 12 (fresh_service (Some empty_redis)) empty_redis 7%nat).
  - reflexivity.
  - reflexivity.
  - discriminate.
  - reflexivity.
Defined.

(** ** Tracking and the queue of [app.py] *)

Lemma incr_reachable (key : string) (r : Redis.server) :
  Redis.reachable (fst (Redis.incr key r)) = Redis.reachable r.
Proof.
  unfold Redis.incr, Redis.connected. destruct (Redis.reachable r) eqn:E; [|exact E].
  destruct (Redis.db r !! key) as [[[n|s|h] t]|]; cbn; try exact E.
  destruct (n <? Redis.int64_max); cbn; exact E.
Qed.

Lemma expire_reachable (key : string) (seconds : Z) (r : Redis.server) :
  Redis.reachable (fst (Redis.expire key seconds r)) = Redis.reachable r.
Proof.
  unfold Redis.expire, Redis.connected. destruct (Redis.reachable r) eqn:E; [|exact E].
  destruct (Redis.db r !! key); cbn; exact E.
Qed.

(** The counter update never changes whether the server can be reached. *)
Lemma update_counters_reachable (event_data : App.Event) (r : Redis.server) :
  Redis.reachable (fst (App.update_counters_on event_data r)) = Redis.reachable r.
Proof.
  unfold App.update_counters_on, and_then, ret.
  pose proof (incr_reachable ("counter:event:" +:+ App.event_type event_data) r) as H1.
  destruct (Redis.incr _ r) as [r1 [n1|e1]]; cbn [fst] in *; [|exact H1].
  assert (H2 : forall r2 out,
    (if App.truthy (App.user_id event_data)
     then Redis.incr ("counter:user:" +:+ default "" (App.user_id event_data))
     else ret 0) r1 = (r2, out) -> Redis.reachable r2 = Redis.reachable r).
  { intros r2 out H. destruct (App.truthy _).
    - pose proof (incr_reachable ("counter:user:" +:+ default "" (App.user_id event_data)) r1)
        as H'. rewrite H in H'. cbn [fst] in H'. congruence.
    - unfold ret in H. injection H as <- _. exact H1. }
  unfold ret in *.
  match goal with
  | |- context [ (if ?c then ?a else ?b) r1 ] =>
      destruct ((if c then a else b) r1) as [r2 [n2|e2]] eqn:E2
  end; cbn [fst]; [|eapply H2; reflexivity].
  pose proof (expire_reachable ("counter:event:" +:+ App.event_type event_data) 86400 r2)
    as H3.
  destruct (Redis.expire _ 86400 r2) as [r3 [b|e3]]; cbn [fst] in *;
    rewrite H3; eapply H2; reflexivity.
Qed.

(** What [process_event] of [app.py] does to the store, whatever happens
    to the counters. *)
Lemma process_event_database (db_now : Z) (event : App.Event) (st : App.State) :
  App.database (fst (App.process_event db_now event st))
  = {| App.events := App.events (App.database st) ++ [row_of event db_now];
       App.tool_usage := App.tool_usage (App.database st);
       App.payments := App.payments (App.database st);
       App.subscriptions := App.subscriptions (App.database st) |}.
Proof.
  unfold App.process_event.
  destruct (App.update_real_time_counters event (App.redis_client st)). reflexivity.
Qed.

Lemma process_event_client (db_now : Z) (event : App.Event) (st : App.State)
    (r : Redis.server) :
  App.redis_client st = Some r ->
  exists r', App.redis_client (fst (App.process_event db_now event st)) = Some r' /\
             Redis.reachable r' = Redis.reachable r.
Proof.
  intros Hc. unfold App.process_event, App.update_real_time_counters. rewrite Hc.
  pose proof (update_counters_reachable event r) as H.
  destruct (App.update_counters_on event r) as [r' out]. cbn [fst] in *. eauto.
Qed.

(** While the server is unreachable the queue loop changes nothing. *)
Lemma drain_unreachable (times : list Z) (s : AppEndpoints.Service) (r : Redis.server) :
  AppEndpoints.redis_client s = Some r ->
  Redis.reachable r = false ->
  AppEndpoints.drain times s = s.
Proof.
  intros Hc Hr. induction times as [|db_now times IH]; [reflexivity|].
  change (AppEndpoints.drain (db_now :: times) s)
    with (AppEndpoints.drain times (fst (AppEndpoints.process_analytics_queue db_now s))).
  assert (Hround : fst (AppEndpoints.process_analytics_queue db_now s) = s).
  { unfold AppEndpoints.process_analytics_queue. now rewrite Hc, Hr. }
  rewrite Hround. exact IH.
Qed.

(** X18: [track_event] routes by the client. Without a client the event is
    stored at once; with a reachable server it is only queued, the store
    being left untouched; with an unreachable server the caller gets a 500,
    the event is neither stored nor queued, and no number of rounds of the
    queue loop brings it back while the server stays unreachable. *)
Theorem track_event_routes (db_now : Z) (event : App.Event) (s : AppEndpoints.Service) :
  let outcome := AppEndpoints.track_event db_now event s in
  match AppEndpoints.redis_client s with
  | None =>
      snd outcome = AppEndpoints.Success "Event tracked successfully" /\
      App.events (AppEndpoints.db (fst outcome))
        = App.events (AppEndpoints.db s) ++ [row_of event db_now] /\
      AppEndpoints.analytics_queue (fst outcome) = AppEndpoints.analytics_queue s
  | Some r =>
      if Redis.reachable r then
        snd outcome = AppEndpoints.Success "Event tracked successfully" /\
        AppEndpoints.db (fst outcome) = AppEndpoints.db s /\
        AppEndpoints.analytics_queue (fst outcome)
          = AppEndpoints.analytics_queue s ++ [event]
      else
        outcome = (s, AppEndpoints.HTTPException 500 "Failed to track event") /\
        forall times, AppEndpoints.drain times (fst outcome) = s
  end.
Proof.
  cbv zeta. unfold AppEndpoints.track_event.
  destruct (AppEndpoints.redis_client s) as [r|] eqn:Ec.
  - destruct (Redis.reachable r) eqn:Er.
    + cbn. auto.
    + split; [reflexivity|]. intros times. cbn [fst].
      exact (drain_unreachable times s r Ec Er).
  - cbn. auto.
Qed.

(** One round of the queue loop on a reachable server. *)
Lemma queue_round_spec (db_now : Z) (s : AppEndpoints.Service) (r : Redis.server) :
  AppEndpoints.redis_client s = Some r ->
  Redis.reachable r = true ->
  let s1 := fst (AppEndpoints.process_analytics_queue db_now s) in
  (exists r1, AppEndpoints.redis_client s1 = Some r1 /\ Redis.reachable r1 = true) /\
  App.events (AppEndpoints.db s1)
    = App.events (AppEndpoints.db s) ++ rows_of (AppEndpoints.analytics_queue s) [db_now] /\
  AppEndpoints.analytics_queue s1 = skipn 1 (AppEndpoints.analytics_queue s) /\
  App.payments (AppEndpoints.db s1) = App.payments (AppEndpoints.db s) /\
  App.tool_usage (AppEndpoints.db s1) = App.tool_usage (AppEndpoints.db s) /\
  App.subscriptions (AppEndpoints.db s1) = App.subscriptions (AppEndpoints.db s).
Proof.
  intros Hc Hr. cbv zeta. unfold AppEndpoints.process_analytics_queue. rewrite Hc, Hr.
  destruct (AppEndpoints.analytics_queue s) as [|event rest] eqn:Eq.
  - cbn [fst rows_of skipn]. rewrite app_nil_r. rewrite Hc. eauto 10.
  - destruct (process_event_client db_now event
                {| App.database := AppEndpoints.db s;
                   App.redis_client := Some r |} r eq_refl) as (r' & Hc' & Hr').
    pose proof (process_event_database db_now event
                  {| App.database := AppEndpoints.db s;
                     App.redis_client := Some r |}) as Hdb.
    destruct (App.process_event db_now event _) as [st out]. cbn [fst] in *.
    cbn [AppEndpoints.db AppEndpoints.analytics_queue AppEndpoints.redis_client
         rows_of skipn].
    rewrite Hdb. cbn [App.events App.payments App.tool_usage App.subscriptions
      App.database].
    repeat split; try reflexivity.
    + exists r'. split; [exact Hc' | congruence].
    + destruct rest; reflexivity.
Qed.

Lemma rows_of_cons (queue : list App.Event) (db_now : Z) (times : list Z) :
  rows_of queue (db_now :: times) = rows_of queue [db_now] ++ rows_of (skipn 1 queue) times.
Proof.
  destruct queue as [|event rest]; [reflexivity|].
  cbn [rows_of skipn app]. destruct rest; reflexivity.
Qed.

(** The queue loop over some rounds, on a reachable server. *)
Lemma drain_spec (times : list Z) :
  forall (s : AppEndpoints.Service) (r : Redis.server),
    AppEndpoints.redis_client s = Some r ->
    Redis.reachable r = true ->
    let s' := AppEndpoints.drain times s in
    App.events (AppEndpoints.db s')
      = App.events (AppEndpoints.db s) ++ rows_of (AppEndpoints.analytics_queue s) times /\
    AppEndpoints.analytics_queue s'
      = skipn (length times) (AppEndpoints.analytics_queue s) /\
    App.payments (AppEndpoints.db s') = App.payments (AppEndpoints.db s) /\
    App.tool_usage (AppEndpoints.db s') = App.tool_usage (AppEndpoints.db s) /\
    App.subscriptions (AppEndpoints.db s') = App.subscriptions (AppEndpoints.db s).
Proof.
  induction times as [|db_now times IH]; intros s r Hc Hr; cbv zeta.
  - cbn. destruct (AppEndpoints.analytics_queue s); cbn; rewrite app_nil_r; auto.
  - change (AppEndpoints.drain (db_now :: times) s)
      with (AppEndpoints.drain times (fst (AppEndpoints.process_analytics_queue db_now s))).
    destruct (queue_round_spec db_now s r Hc Hr)
      as ((r1 & Hc1 & Hr1) & E1 & E2 & E3 & E4 & E5).
    cbv zeta in Hc1, E1, E2, E3, E4, E5.
    destruct (IH _ r1 Hc1 Hr1) as (H1 & H2 & H3 & H4 & H5). cbv zeta in H1, H2, H3, H4, H5.
    rewrite H1, H2, H3, H4, H5, E1, E2, E3, E4, E5.
    rewrite (rows_of_cons (AppEndpoints.analytics_queue s) db_now times), <- app_assoc.
    repeat split; try reflexivity.
    cbn [length]. now rewrite List.skipn_skipn, Nat.add_1_r.
Qed.

Lemma track_event_queues (db_now : Z) (event : App.Event) (s : AppEndpoints.Service)
    (r : Redis.server) :
  AppEndpoints.redis_client s = Some r ->
  Redis.reachable r = true ->
  fst (AppEndpoints.track_event db_now event s)
  = {| AppEndpoints.db := AppEndpoints.db s;
       AppEndpoints.system_metrics := AppEndpoints.system_metrics s;
       AppEndpoints.redis_client := Some r;
       AppEndpoints.analytics_queue := AppEndpoints.analytics_queue s ++ [event];
       AppEndpoints.hub := AppEndpoints.hub s |}.
Proof.
  intros Hc Hr. unfold AppEndpoints.track_event. rewrite Hc, Hr. reflexivity.
Qed.

Lemma track_all_spec (calls : list (Z * App.Event)) :
  forall (s : AppEndpoints.Service) (r : Redis.server),
    AppEndpoints.redis_client s = Some r ->
    Redis.reachable r = true ->
    track_all calls s
    = {| AppEndpoints.db := AppEndpoints.db s;
         AppEndpoints.system_metrics := AppEndpoints.system_metrics s;
         AppEndpoints.redis_client := Some r;
         AppEndpoints.analytics_queue := AppEndpoints.analytics_queue s ++ map snd calls;
         AppEndpoints.hub := AppEndpoints.hub s |}.
Proof.
  induction calls as [|[db_now event] rest IH]; intros s r Hc Hr.
  - cbn. rewrite app_nil_r. destruct s. cbn in Hc. now rewrite Hc.
  - cbn [track_all fold_left fst snd map]. fold (track_all rest).
    rewrite (track_event_queues db_now event s r Hc Hr).
    erewrite IH; [|reflexivity|exact Hr]. cbn. now rewrite <- app_assoc.
Qed.

(** X19: on a reachable server, events tracked one after the other reach
    the store in the order of their arrival: once the queue loop has run as
    many rounds as events were tracked on an empty queue, the queue is empty
    again and the store holds one new row per event, in order, each stamped
    with the time of the round that processed it (not the time it was
    tracked); the other tables are untouched. *)
Theorem tracked_events_are_stored_in_order (calls : list (Z * App.Event))
    (times : list Z) (s : AppEndpoints.Service) (r : Redis.server) :
  AppEndpoints.redis_client s = Some r ->
  Redis.reachable r = true ->
  AppEndpoints.analytics_queue s = [] ->
  length times = length calls ->
  let tracked := track_all calls s in
  let drained := AppEndpoints.drain times tracked in
  AppEndpoints.db tracked = AppEndpoints.db s /\
  AppEndpoints.analytics_queue tracked = map snd calls /\
  App.events (AppEndpoints.db drained)
    = App.events (AppEndpoints.db s) ++ rows_of (map snd calls) times /\
  AppEndpoints.analytics_queue drained = [] /\
  App.payments (AppEndpoints.db drained) = App.payments (AppEndpoints.db s) /\
  App.tool_usage (AppEndpoints.db drained) = App.tool_usage (AppEndpoints.db s) /\
  App.subscriptions (AppEndpoints.db drained) = App.subscriptions (AppEndpoints.db s).
Proof.
  intros Hc Hr Hq Hlen. cbv zeta.
  rewrite (track_all_spec calls s r Hc Hr), Hq. cbn [app AppEndpoints.db
    AppEndpoints.analytics_queue].
  split; [reflexivity|]. split; [reflexivity|].
  match goal with
  | |- context [ AppEndpoints.drain times ?s1 ] =>
      destruct (drain_spec times s1 r eq_refl Hr) as (H1 & H2 & H3 & H4 & H5)
  end.
  cbn [AppEndpoints.db AppEndpoints.analytics_queue] in H1, H2, H3, H4, H5.
  rewrite H1, H2, H3, H4, H5. repeat split; try reflexivity.
  apply List.skipn_all2. rewrite List.length_map. lia.
Qed.

Lemma tracked_events_are_stored_in_order_witness :
  let s := fresh_service (Some empty_redis) in
  let calls := [(1, page_view_by_u1); (2, page_view_by_u1)] in
  let drained := AppEndpoints.drain [5; 6] (track_all calls s) in
  App.events (AppEndpoints.db drained)
    = [row_of page_view_by_u1 5; row_of page_view_by_u1 6] /\
  AppEndpoints.analytics_queue drained = [].
Proof.
  cbv zeta.
  destruct (tracked_events_are_stored_in_order
              [(1, page_view_by_u1); (2, page_view_by_u1)] [5; 6]
              (fresh_service (Some empty_redis)) empty_redis
              eq_refl eq_refl eq_refl eq_refl) as (_ & _ & H & Hq & _).
  split; [exact H | exact Hq].
Defined.

(** ** Closing a connection of [app.py] *)

Lemma existsb_eqb_In (x : App.WebSocket) (l : list App.WebSocket) :
  existsb (Nat.eqb x) l = true <-> In x l.
Proof.
  rewrite List.existsb_exists. split.
  - intros (y & Hin & Heq). apply Nat.eqb_eq in Heq. now subst.
  - intros Hin. exists x. split; [exact Hin | apply Nat.eqb_refl].
Qed.

Lemma filter_other_id (x : App.WebSocket) (l : list App.WebSocket) :
  ~ In x l -> List.filter (fun c => negb (Nat.eqb c x)) l = l.
Proof.
  induction l as [|y l IH]; intros Hnot; [reflexivity|].
  cbn [List.filter]. destruct (Nat.eqb_spec y x) as [->|_].
  - exfalso. apply Hnot. now left.
  - cbn [negb]. rewrite IH; [reflexivity|]. intros H. apply Hnot. now right.
Qed.

(** On a registry without repetition [list.remove] takes out the socket
    and keeps the others in order. *)
Lemma list_remove_NoDup (x : App.WebSocket) (l : list App.WebSocket) :
  List.NoDup l -> In x l ->
  App.list_remove x l = Ok (List.filter (fun c => negb (Nat.eqb c x)) l).
Proof.
  induction 1 as [|y l Hy Hnd IH]; intros Hin; [destruct Hin|].
  cbn [App.list_remove List.filter].
  destruct (Nat.eqb_spec x y) as [->|Hne].
  - rewrite Nat.eqb_refl. cbn [negb]. now rewrite filter_other_id.
  - destruct (Nat.eqb_spec y x) as [->|_]; [contradiction|]. cbn [negb].
    destruct Hin as [->|Hin]; [contradiction|]. now rewrite IH.
Qed.

Lemma list_remove_In (x : App.WebSocket) (l : list App.WebSocket) :
  In x l -> exists l', App.list_remove x l = Ok l'.
Proof.
  induction l as [|y l IH]; intros Hin; [destruct Hin|].
  cbn [App.list_remove]. destruct (Nat.eqb_spec x y) as [->|Hne]; [eauto|].
  destruct Hin as [->|Hin]; [contradiction|].
  destruct (IH Hin) as [l' ->]. eauto.
Qed.

(** X20: the [finally] block of the connection handler never raises. It
    leaves the hub as it is when the socket is no longer registered, as
    after a broadcast pass that removed it for a failed send; on a registry
    without repetition it takes the socket out and keeps every other
    connection, in order. *)
Theorem closing_a_connection (websocket : App.WebSocket) (h : App.Hub) :
  let closed := AppEndpoints.websocket_finally websocket h in
  snd closed = Ok tt /\
  App.sent (fst closed) = App.sent h /\
  (~ In websocket (App.active_connections h) -> fst closed = h) /\
  (List.NoDup (App.active_connections h) ->
   App.active_connections (fst closed)
   = List.filter (fun c => negb (Nat.eqb c websocket)) (App.active_connections h)) /\
  (forall send_ok event_type data now,
     send_ok websocket = false ->
     let broadcast := fst (App.broadcast_to_clients send_ok event_type data now h) in
     AppEndpoints.websocket_finally websocket broadcast = (broadcast, Ok tt)).
Proof.
  cbv zeta.
  assert (Hpass : forall send_ok event_type data now,
            fst (App.broadcast_to_clients send_ok event_type data now h)
            = hub_after send_ok
                {| App.msg_type := event_type; App.msg_data := data;
                   App.msg_timestamp := now |} h).
  { intros send_ok event_type data now.
    pose proof (broadcast_to_clients_spec send_ok
                  {| App.msg_type := event_type; App.msg_data := data;
                     App.msg_timestamp := now |} h) as Hb.
    cbn [App.msg_type App.msg_data App.msg_timestamp] in Hb. now rewrite Hb. }
  unfold AppEndpoints.websocket_finally.
  assert (Hgone : forall h0, ~ In websocket (App.active_connections h0) ->
            existsb (Nat.eqb websocket) (App.active_connections h0) = false).
  { intros h0 Hnot. destruct (existsb _ _) eqn:E; [|reflexivity].
    apply existsb_eqb_In in E. contradiction. }
  destruct (existsb (Nat.eqb websocket) (App.active_connections h)) eqn:E.
  - apply existsb_eqb_In in E. destruct (list_remove_In _ _ E) as [l' Hl'].
    rewrite Hl'. cbn [fst snd App.sent App.active_connections].
    split; [reflexivity|]. split; [reflexivity|]. split; [contradiction|]. split.
    + intros Hnd. rewrite (list_remove_NoDup _ _ Hnd E) in Hl'. now injection Hl' as <-.
    + intros send_ok event_type data now Hfail. rewrite Hpass, Hgone; [reflexivity|].
      cbn [hub_after App.active_connections]. intros Hin.
      apply List.filter_In in Hin as [_ Hin]. congruence.
  - cbn [fst snd]. split; [reflexivity|]. split; [reflexivity|]. split; [reflexivity|].
    split.
    + intros _. symmetry. apply filter_other_id. intros Hin.
      apply existsb_eqb_In in Hin. congruence.
    + intros send_ok event_type data now Hfail. rewrite Hpass, Hgone; [reflexivity|].
      cbn [hub_after App.active_connections]. intros Hin.
      apply List.filter_In in Hin as [_ Hin]. congruence.
Qed.

Lemma closing_a_connection_witness :
  let h := {| App.active_connections := [1%nat; 2%nat; 3%nat]; App.sent := [] |} in
  App.active_connections (fst (AppEndpoints.websocket_finally 2%nat h)) = [1%nat; 3%nat].
Proof.
  cbv zeta.
  apply (proj1 (proj2 (proj2 (proj2
           (closing_a_connection 2%nat
              {| App.active_connections := [1%nat; 2%nat; 3%nat]; App.sent := [] |}))))).
  cbn. repeat constructor; cbn; lia.
Defined.

(** ** The revenue summary *)

(** Rounding keeps the order. *)
Lemma round_half_even_mono (x y : Q) :
  (x <= y)%Q -> round_half_even x <= round_half_even y.
Proof.
  intros Hxy.
  pose proof (Qfloor_resp_le x y Hxy) as Hfl.
  pose proof (Qfloor_le x) as Hx1. pose proof (Qlt_floor x) as Hx2.
  pose proof (Qfloor_le y) as Hy1. pose proof (Qlt_floor y) as Hy2.
  rewrite inject_Z_plus in Hx2, Hy2. change (inject_Z 1) with 1%Q in Hx2, Hy2.
  unfold round_half_even.
  destruct (Z.eq_dec (Qfloor x) (Qfloor y)) as [E|E].
  - rewrite E in *.
    destruct (Qltb (2 * (x - inject_Z (Qfloor y))) 1) eqn:A1;
      destruct (Qltb (2 * (y - inject_Z (Qfloor y))) 1) eqn:B1;
      destruct (Qltb 1 (2 * (x - inject_Z (Qfloor y)))) eqn:A2;
      destruct (Qltb 1 (2 * (y - inject_Z (Qfloor y)))) eqn:B2;
      destruct (Z.even (Qfloor y));
      try lia;
      repeat match goal with
             | H : Qltb _ _ = true |- _ => apply Qltb_lt in H
             | H : Qltb _ _ = false |- _ => apply Qltb_ge in H
             end; exfalso; lra.
  - assert (Hlt : Qfloor x + 1 <= Qfloor y) by lia.
    destruct (Qltb (2 * (x - inject_Z (Qfloor x))) 1);
      destruct (Qltb (2 * (y - inject_Z (Qfloor y))) 1);
      destruct (Qltb 1 (2 * (x - inject_Z (Qfloor x))));
      destruct (Qltb 1 (2 * (y - inject_Z (Qfloor y))));
      destruct (Z.even (Qfloor x)); destruct (Z.even (Qfloor y)); lia.
Qed.

Lemma round2_mono (x y : Q) : (x <= y)%Q -> (round2 x <= round2 y)%Q.
Proof.
  intros Hxy. unfold round2.
  assert (H : round_half_even (x * 100) <= round_half_even (y * 100)).
  { apply round_half_even_mono. lra. }
  rewrite Zle_Qle in H.
  set (a := inject_Z (round_half_even (x * 100))) in *.
  set (b := inject_Z (round_half_even (y * 100))) in *.
  unfold Qdiv. change (/ 100)%Q with (1#100)%Q. lra.
Qed.

(** A sum over fewer rows of non-negative amounts is not larger. *)
Lemma Qsum_filter_mono {A : Type} (amount : A -> Q) (p1 p2 : A -> bool) (rows : list A) :
  (forall x, In x rows -> p1 x = true -> p2 x = true) ->
  (forall x, In x rows -> (0 <= amount x)%Q) ->
  (Qsum (map amount (List.filter p1 rows)) <= Qsum (map amount (List.filter p2 rows)))%Q.
Proof.
  induction rows as [|x rows IH]; intros Himp Hpos; [cbn; lra|].
  assert (IH' : (Qsum (map amount (List.filter p1 rows))
                 <= Qsum (map amount (List.filter p2 rows)))%Q).
  { apply IH; intros y Hy; [apply Himp | apply Hpos]; now right. }
  specialize (Himp x (or_introl eq_refl)). specialize (Hpos x (or_introl eq_refl)).
  cbn [List.filter]. destruct (p1 x) eqn:E1.
  - rewrite (Himp eq_refl). unfold Qsum in *. cbn [map fold_right]. lra.
  - destruct (p2 x); unfold Qsum in *; cbn [map fold_right]; lra.
Qed.

(** An instant of the calendar day of [now] lies in the trailing day. *)
Lemma same_day_within_24h (instant now : Z) :
  AppEndpoints.date_of instant = AppEndpoints.date_of now -> App.day_ago now < instant.
Proof.
  unfold AppEndpoints.date_of, App.day_ago, App.one_day. intros H.
  pose proof (Z.mul_div_le instant 86400000000 ltac:(lia)) as H1.
  pose proof (Z.mul_succ_div_gt now 86400000000 ltac:(lia)) as H2.
  rewrite <- H in H2. lia.
Qed.

(** X21: the revenue summary agrees with the snapshot on total revenue,
    monthly and annual recurring revenue; its average payment is 0 when
    there is no completed payment (no division by zero); and, amounts being
    non-negative, the revenue of the calendar day it reports never exceeds
    the revenue of the trailing 24 hours of a snapshot taken at the same
    instant. *)
Theorem revenue_summary_agrees_with_snapshot (db : App.Db) (now : Z) (host : App.Host) :
  let summary := AppEndpoints.get_revenue_summary db now in
  let snapshot := App.calculate_real_time_metrics db now host in
  AppEndpoints.total_revenue summary = App.total_revenue snapshot /\
  AppEndpoints.mrr summary = App.mrr snapshot /\
  AppEndpoints.arr summary = App.arr snapshot /\
  (AppEndpoints.payment_count summary = 0%nat -> AppEndpoints.avg_payment summary = 0%Q) /\
  ((forall p, In p (App.payments db) -> (0 <= App.p_amount p)%Q) ->
   (AppEndpoints.revenue_today summary <= App.revenue_today snapshot)%Q).
Proof.
  cbv zeta. unfold AppEndpoints.get_revenue_summary, App.calculate_real_time_metrics.
  cbn [AppEndpoints.total_revenue AppEndpoints.mrr AppEndpoints.arr
       AppEndpoints.payment_count AppEndpoints.avg_payment AppEndpoints.revenue_today
       App.total_revenue App.mrr App.arr App.revenue_today].
  repeat split; try reflexivity.
  - intros ->. reflexivity.
  - intros Hpos. apply round2_mono.
    unfold AppEndpoints.payments_of_today, App.Calc.revenue_today.
    apply Qsum_filter_mono; [|exact Hpos].
    intros p _ Hp. apply andb_true_iff in Hp as [Hday Hdone].
    apply Z.eqb_eq in Hday. apply same_day_within_24h in Hday.
    apply andb_true_iff. split; [now apply Z.ltb_lt | exact Hdone].
Qed.

Lemma revenue_summary_agrees_with_snapshot_witness :
  let db := {| App.events := []; App.tool_usage := [];
               App.payments :=
                 [{| App.p_user_id := "u1"; App.p_amount := 25; App.p_currency := "USD";
                     App.p_transaction_id := "t1"; App.p_status := "completed";
                     App.p_timestamp := 5 |}];
               App.subscriptions := [] |} in
  (AppEndpoints.revenue_today (AppEndpoints.get_revenue_summary db 10)
   <= App.revenue_today (App.calculate_real_time_metrics db 10 idle_host))%Q.
Proof.
  cbv zeta.
  apply (proj2 (proj2 (proj2 (proj2
           (revenue_summary_agrees_with_snapshot
              {| App.events := []; App.tool_usage := [];
                 App.payments :=
                   [{| App.p_user_id := "u1"; App.p_amount := 25; App.p_currency := "USD";
                       App.p_transaction_id := "t1"; App.p_status := "completed";
                       App.p_timestamp := 5 |}];
                 App.subscriptions := [] |} 10 idle_host))))).
  intros p [<- | []]. vm_compute. discriminate.
Defined.
